(** * desktop-wakatime: enrolled programs, process scanner and watchers

    A shallow embedding of
    - [EnrolledProgramsManager] (helpers/enrolled-programs-manager.ts),
    - [ProcessMonitor] (helpers/process-monitor.ts),
    - [MonitoringManager] (helpers/monitoring-manager.ts),
    - [ProcessWatcher] (watchers/process-watcher.ts),
    - [Watcher] (watchers/watcher.ts),
    followed by the properties of the activity-detection pipeline.

    JavaScript strings are modelled as [string], a sequence of 8-bit
    characters; case mapping and white space are the ASCII ones. *)

From Stdlib Require Import String Ascii List Bool Arith NArith Lia.
From Stdlib Require Import DecimalString.
Import ListNotations.
Local Open Scope string_scope.
Local Open Scope list_scope.

(** ** JavaScript string primitives used by the sources *)

Module JsString.

(** [s.startsWith(sub)] *)
Fixpoint startsWith (s sub : string) {struct sub} : bool :=
  match sub, s with
  | EmptyString, _ => true
  | String _ _, EmptyString => false
  | String c sub', String d s' => Ascii.eqb c d && startsWith s' sub'
  end.

(** [s.includes(sub)] *)
Fixpoint includes (s sub : string) : bool :=
  startsWith s sub ||
  match s with
  | EmptyString => false
  | String _ s' => includes s' sub
  end.

(** [s.substr(n)] with [0 <= n] *)
Fixpoint substr (n : nat) (s : string) : string :=
  match n, s with
  | O, _ => s
  | S _, EmptyString => EmptyString
  | S k, String _ s' => substr k s'
  end.

Fixpoint takeWhile (f : ascii -> bool) (l : list ascii) : list ascii :=
  match l with
  | [] => []
  | c :: l' => if f c then c :: takeWhile f l' else []
  end.

Fixpoint dropWhile (f : ascii -> bool) (l : list ascii) : list ascii :=
  match l with
  | [] => []
  | c :: l' => if f c then dropWhile f l' else l
  end.

Definition lowerChar (c : ascii) : ascii :=
  let n := nat_of_ascii c in
  if ((65 <=? n) && (n <=? 90))%nat then ascii_of_nat (n + 32) else c.

(** [s.toLowerCase()] *)
Fixpoint toLowerCase (s : string) : string :=
  match s with
  | EmptyString => EmptyString
  | String c s' => String (lowerChar c) (toLowerCase s')
  end.

(** tab, line feed, vertical tab, form feed, carriage return, space *)
Definition isWhiteSpace (c : ascii) : bool :=
  let n := nat_of_ascii c in
  (((9 <=? n) && (n <=? 13)) || (n =? 32))%nat.

(** [s.trim()] *)
Definition trim (s : string) : string :=
  string_of_list_ascii
    (rev (dropWhile isWhiteSpace
            (rev (dropWhile isWhiteSpace (list_ascii_of_string s))))).

(** [s.split(sep)] for a non-empty separator: [skip] counts the characters
    of a matched separator that are still to be passed over. *)
Fixpoint split_from (sep : string) (skip : nat) (s : string) : list string :=
  match s with
  | EmptyString => [EmptyString]
  | String c s' =>
      match skip with
      | S k => split_from sep k s'
      | O =>
          if startsWith s sep
          then EmptyString :: split_from sep (String.length sep - 1) s'
          else match split_from sep 0 s' with
               | h :: t => String c h :: t
               | [] => [String c EmptyString]
               end
      end
  end.

Definition split (sep s : string) : list string := split_from sep 0 s.

(** [s.replace(/c/g, '')] for a single character [c] *)
Fixpoint removeAll (c : ascii) (s : string) : string :=
  match s with
  | EmptyString => EmptyString
  | String d s' =>
      if Ascii.eqb d c then removeAll c s' else String d (removeAll c s')
  end.

(** [s.split(/\s+/)]: [inGap] holds while a run of white space is passed. *)
Fixpoint splitWhitespace_from (inGap : bool) (s : string) : list string :=
  match s with
  | EmptyString => [EmptyString]
  | String c s' =>
      if isWhiteSpace c then
        if inGap then splitWhitespace_from true s'
        else EmptyString :: splitWhitespace_from true s'
      else match splitWhitespace_from false s' with
           | h :: t => String c h :: t
           | [] => [String c EmptyString]
           end
  end.

Definition splitWhitespace (s : string) : list string :=
  splitWhitespace_from false s.

(** [parts.join(sep)] *)
Definition join (sep : string) (parts : list string) : string :=
  String.concat sep parts.

Definition extChar (c : ascii) : bool :=
  negb (Ascii.eqb c "/") && negb (Ascii.eqb c ".").

(** [s.replace(/\.[^/.]+$/, '')]: the regular expression can only match at
    the last dot of [s], and does so when that dot is followed by at least
    one character and by no slash. *)
Definition stripExtension (s : string) : string :=
  let r := rev (list_ascii_of_string s) in
  match takeWhile extChar r, dropWhile extChar r with
  | _ :: _, "."%char :: rest => string_of_list_ascii (rev rest)
  | _, _ => s
  end.

Definition digit36 (d : N) : ascii :=
  if (d <? 10)%N then ascii_of_N (48 + d) else ascii_of_N (87 + d).

Fixpoint toString36_pos (fuel : nat) (n : N) (acc : string) : string :=
  match fuel with
  | O => acc
  | S fuel' =>
      if (n =? 0)%N then acc
      else toString36_pos fuel' (n / 36)%N (String (digit36 (n mod 36)%N) acc)
  end.

(** [n.toString(36)] for a non-negative integer [n] *)
Definition toString36 (n : N) : string :=
  if (n =? 0)%N then "0" else toString36_pos (S (N.to_nat (N.log2 n))) n EmptyString.

(** [String(n)] for a non-negative integer [n] *)
Definition toString10 (n : N) : string :=
  NilZero.string_of_uint (N.to_uint n).

End JsString.

(** ** [node:path] *)

Inductive Platform := linux | darwin | win32 | otherPlatform (name : string).

Module NodePath.
Import JsString.

Definition isPosixPathSeparator (c : ascii) : bool := Ascii.eqb c "/".

Definition isPathSeparator (c : ascii) : bool :=
  Ascii.eqb c "/" || Ascii.eqb c "\".

Definition isWindowsDeviceRoot (c : ascii) : bool :=
  let n := nat_of_ascii c in
  (((65 <=? n) && (n <=? 90)) || ((97 <=? n) && (n <=? 122)))%nat.

(** The scan of [basename] from the end of the path: trailing separators are
    passed over, then the characters up to the previous separator are kept. *)
Definition lastSegment (sep : ascii -> bool) (l : list ascii) : list ascii :=
  rev (takeWhile (fun c => negb (sep c)) (dropWhile sep (rev l))).

Definition posix_basename (p : string) : string :=
  string_of_list_ascii
    (lastSegment isPosixPathSeparator (list_ascii_of_string p)).

Definition dropDrive (l : list ascii) : list ascii :=
  match l with
  | d :: ":"%char :: rest => if isWindowsDeviceRoot d then rest else l
  | _ => l
  end.

Definition win32_basename (p : string) : string :=
  string_of_list_ascii
    (lastSegment isPathSeparator (dropDrive (list_ascii_of_string p))).

(** [path.basename(p)] on the given [process.platform] *)
Definition basename (plat : Platform) (p : string) : string :=
  match plat with
  | win32 => win32_basename p
  | _ => posix_basename p
  end.

End NodePath.

(** ** Data model *)

(** [EnrolledProgram] (enrolled-programs-manager.ts) *)
Module EnrolledProgram.
Record t := mk {
  id : string;
  name : string;
  path : string;
  enrolledAt : string;
  lastSeen : option string
}.
End EnrolledProgram.

(** [RunningProcess] (process-monitor.ts); [pid] is [None] when [parseInt]
    yields [NaN]. *)
Module RunningProcess.
Record t := mk {
  pid : option N;
  name : string;
  command : string
}.
End RunningProcess.

Inductive LogLevel := DEBUG | INFO | WARN | ERROR.

(** The [appData] object built by [sendProgramHeartbeat] *)
Record AppData := mkAppData {
  app_id : string;
  app_name : string;
  app_path : string;
  app_icon : option string;
  app_version : option string;
  app_bundleId : option string;
  app_isBrowser : bool;
  app_isDefaultEnabled : bool;
  app_isElectronApp : bool;
  app_execName : string
}.

Record WindowPosition := mkPosition {
  pos_x : N; pos_y : N; pos_width : N; pos_height : N; pos_isFullScreen : bool
}.

Record WindowUsage := mkUsage { usage_memory : N; usage_cpu : N }.

Record WindowProcess := mkWindowProcess {
  info_name : string;
  info_path : string;
  info_processId : N
}.

(** [WindowInfo]: the object built by [sendProgramHeartbeat] and the one the
    window subscription delivers to [Watcher]. *)
Record WindowInfo := mkWindowInfo {
  win_id : N;
  win_os : Platform;
  win_title : string;
  win_position : WindowPosition;
  win_usage : WindowUsage;
  win_url : string;
  win_info : WindowProcess
}.

(** The argument of [wakatime.sendHeartbeat] *)
Record Heartbeat := mkHeartbeat {
  hb_appData : AppData;
  hb_windowInfo : WindowInfo;
  hb_project : string;
  hb_entity : string;
  hb_entityType : string;
  hb_category : string;
  hb_language : string;
  hb_isWrite : bool
}.

(** ** The host: collaborators outside the repository *)

(** Library functions and configuration the sources call but do not define. *)
Class Runtime := {
  (** [process.platform] *)
  platform : Platform;
  (** [path.join(getWakatimeAppDataFolderPath(), 'enrolled-programs.json')] *)
  dataFilePath : string;
  (** [path.dirname(dataFilePath)] *)
  dataDir : string;
  (** [new Date(ms).toISOString()] *)
  toISOString : N -> string;
  (** [JSON.stringify({ programs }, null, 2)] *)
  JSON_stringify : list EnrolledProgram.t -> string;
  (** [enrolledProgramsSchema.parse(JSON.parse(data)).programs], or the
      text of the error thrown *)
  schema_parse : string -> string + list EnrolledProgram.t;
  (** [parseInt(s)], [None] for [NaN] *)
  parseInt : string -> option N
}.

Inductive FsNode := Dir | File (content : string).
Inductive FsOp := OpRead | OpWrite | OpMkdir.
Inductive ExecResult := ExecFailed (error : string) | ExecStdout (stdout : string).

(** The state of the machine around the program.  Clock, random source and
    child processes answer the successive calls of the program in turn. *)
Record World := mkWorld {
  (** the file system *)
  fs : string -> option FsNode;
  (** the error an operation of the file system throws, if it does *)
  fs_fault : FsOp -> option string;
  (** [Date.now()] at each reading, and the number of readings so far *)
  clock : nat -> N;
  clock_reads : nat;
  (** [Math.random().toString(36)] at each draw, and the number of draws *)
  random36 : nat -> string;
  random_draws : nat;
  (** the outcome of each [exec] of a command, and the number of them *)
  exec : nat -> string -> ExecResult;
  execs : nat;
  (** the handles of the armed interval timers, and the next handle *)
  timers : list nat;
  timer_seq : nat
}.

(** What the program does to its collaborators, in order. *)
Inductive Event :=
| Log (message : string) (level : option LogLevel) (external : bool)
| WriteFile (file data : string)
| Mkdir (dir : string)
| Exec (cmd : string)
| SendHeartbeat (h : Heartbeat)
| SetInterval (handle : nat) (ms : N)
| ClearInterval (handle : nat)
| AddKeyListener
| RemoveKeyListener
| SubscribeActiveWindow
| UnsubscribeActiveWindow (subscription : N).

Module Host.

Definition with_fs (w : World) (f : string -> option FsNode) : World :=
  mkWorld f (fs_fault w) (clock w) (clock_reads w) (random36 w)
    (random_draws w) (exec w) (execs w) (timers w) (timer_seq w).

Definition with_clock_reads (w : World) (n : nat) : World :=
  mkWorld (fs w) (fs_fault w) (clock w) n (random36 w)
    (random_draws w) (exec w) (execs w) (timers w) (timer_seq w).

Definition with_random_draws (w : World) (n : nat) : World :=
  mkWorld (fs w) (fs_fault w) (clock w) (clock_reads w) (random36 w)
    n (exec w) (execs w) (timers w) (timer_seq w).

Definition with_execs (w : World) (n : nat) : World :=
  mkWorld (fs w) (fs_fault w) (clock w) (clock_reads w) (random36 w)
    (random_draws w) (exec w) n (timers w) (timer_seq w).

Definition with_timers (w : World) (l : list nat) (next : nat) : World :=
  mkWorld (fs w) (fs_fault w) (clock w) (clock_reads w) (random36 w)
    (random_draws w) (exec w) (execs w) l next.

(** [fs.existsSync(p)] *)
Definition existsSync (w : World) (p : string) : bool :=
  match fs w p with
  | Some _ => true
  | None => false
  end.

Definition put (f : string -> option FsNode) (p : string) (n : FsNode)
  : string -> option FsNode :=
  fun q => if String.eqb q p then Some n else f q.

(** [fs.readFileSync(p, { encoding: 'utf-8' })] *)
Definition readFileSync (w : World) (p : string) : string + string :=
  match fs_fault w OpRead with
  | Some err => inl err
  | None =>
      match fs w p with
      | Some (File content) => inr content
      | Some Dir => inl "Error: EISDIR: illegal operation on a directory, read"
      | None => inl ("Error: ENOENT: no such file or directory, open '" ++ p ++ "'")%string
      end
  end.

(** [fs.writeFileSync(p, data)] *)
Definition writeFileSync (w : World) (p data : string) : string + World :=
  match fs_fault w OpWrite with
  | Some err => inl err
  | None =>
      match fs w p with
      | Some Dir => inl ("Error: EISDIR: illegal operation on a directory, open '" ++ p ++ "'")%string
      | _ => inr (with_fs w (put (fs w) p (File data)))
      end
  end.

(** [fs.mkdirSync(p, { recursive: true })] *)
Definition mkdirSync (w : World) (p : string) : string + World :=
  match fs_fault w OpMkdir with
  | Some err => inl err
  | None =>
      match fs w p with
      | Some (File _) => inl ("Error: EEXIST: file already exists, mkdir '" ++ p ++ "'")%string
      | _ => inr (with_fs w (put (fs w) p Dir))
      end
  end.

(** [Date.now()] *)
Definition Date_now (w : World) : N * World :=
  (clock w (clock_reads w), with_clock_reads w (S (clock_reads w))).

(** [Math.random().toString(36)] *)
Definition Math_random36 (w : World) : string * World :=
  (random36 w (random_draws w), with_random_draws w (S (random_draws w))).

(** [execAsync(cmd)] *)
Definition execAsync (w : World) (cmd : string) : ExecResult * World :=
  (exec w (execs w) cmd, with_execs w (S (execs w))).

(** [setInterval(callback, ms)] *)
Definition setInterval (w : World) : nat * World :=
  (timer_seq w, with_timers w (timer_seq w :: timers w) (S (timer_seq w))).

(** [clearInterval(handle)] *)
Definition clearInterval (w : World) (handle : nat) : World :=
  with_timers w (filter (fun h => negb (Nat.eqb h handle)) (timers w))
    (timer_seq w).

End Host.

(** ** [EnrolledProgramsManager]

    The instance field [programs] is passed in and returned; the methods
    that touch the host also thread the [World] and return their events. *)

Module Registry.
Import JsString NodePath Host.
Module EP := EnrolledProgram.

Section Manager.
Context {R : Runtime}.

(** [programs.findIndex(f)], [None] for [-1] *)
Fixpoint findIndex {A : Type} (f : A -> bool) (l : list A) : option nat :=
  match l with
  | [] => None
  | x :: l' =>
      if f x then Some O
      else match findIndex f l' with
           | Some i => Some (S i)
           | None => None
           end
  end.

(** [programs.splice(index, 1)] *)
Definition splice1 {A : Type} (index : nat) (l : list A) : list A :=
  firstn index l ++ skipn (S index) l.

(** [savePrograms()] *)
Definition savePrograms (programs : list EP.t) (w : World)
  : World * list Event :=
  let data := JSON_stringify programs in
  match writeFileSync w dataFilePath data with
  | inr w' => (w', [WriteFile dataFilePath data])
  | inl error =>
      (w, [WriteFile dataFilePath data;
           Log ("Failed to save enrolled programs: " ++ error) (Some ERROR) true])
  end.

(** The callback of [programs.filter] in [loadPrograms] and the log entries
    it leaves. *)
Definition pathStillExists (w : World) (program : EP.t) : bool :=
  existsSync w (EP.path program).

Definition removalLog (program : EP.t) : Event :=
  Log ("Removing enrolled program " ++ EP.name program ++
       " because path no longer exists: " ++ EP.path program)
      (Some INFO) false.

Definition removalLogs (w : World) (programs : list EP.t) : list Event :=
  map removalLog (filter (fun p => negb (pathStillExists w p)) programs).

Definition loadFailed (error : string) : Event :=
  Log ("Failed to load enrolled programs: " ++ error) (Some ERROR) true.

(** [loadPrograms()] *)
Definition loadPrograms (programs : list EP.t) (w : World)
  : list EP.t * World * list Event :=
  if negb (existsSync w dataFilePath) then
    if negb (existsSync w dataDir) then
      match mkdirSync w dataDir with
      | inl error => ([], w, [Mkdir dataDir; loadFailed error])
      | inr w1 =>
          let '(w2, evs) := savePrograms programs w1 in
          (programs, w2, Mkdir dataDir :: evs)
      end
    else
      let '(w2, evs) := savePrograms programs w in
      (programs, w2, evs)
  else
    match readFileSync w dataFilePath with
    | inl error => ([], w, [loadFailed error])
    | inr data =>
        match schema_parse data with
        | inl error => ([], w, [loadFailed error])
        | inr parsed =>
            let kept := filter (pathStillExists w) parsed in
            let '(w2, evs) := savePrograms kept w in
            (kept, w2, removalLogs w parsed ++ evs)
        end
    end.

(** The constructor: [programs] starts empty and is loaded at once. *)
Definition construct (w : World) : list EP.t * World * list Event :=
  loadPrograms [] w.

(** [generateId()] *)
Definition generateId (w : World) : string * World :=
  let '(now, w1) := Date_now w in
  let '(rnd, w2) := Math_random36 w1 in
  ((toString36 now ++ substr 2 rnd)%string, w2).

(** [new Date().toISOString()] *)
Definition newDateISO (w : World) : string * World :=
  let '(now, w1) := Date_now w in (toISOString now, w1).

(** [isProgramEnrolled(programPath)] *)
Definition isProgramEnrolled (programs : list EP.t) (programPath : string)
  : bool :=
  existsb (fun p => String.eqb (EP.path p) programPath) programs.

(** [getAllPrograms()] *)
Definition getAllPrograms (programs : list EP.t) : list EP.t := programs.

(** [getProgramById(id)] *)
Definition getProgramById (programs : list EP.t) (id : string)
  : option EP.t :=
  find (fun p => String.eqb (EP.id p) id) programs.

(** [getProgramByPath(path)] *)
Definition getProgramByPath (programs : list EP.t) (path : string)
  : option EP.t :=
  find (fun p => String.eqb (EP.path p) path) programs.

(** [getEnrolledPaths()] *)
Definition getEnrolledPaths (programs : list EP.t) : list string :=
  map EP.path programs.

Definition enrollFailed (error : string) : Event :=
  Log ("Failed to enroll program: " ++ error) (Some ERROR) true.

(** [enrollProgram(programPath)]; [None] is the [null] returned from the
    [catch] block. *)
Definition enrollProgram (programPath : string) (programs : list EP.t)
    (w : World) : option EP.t * list EP.t * World * list Event :=
  if negb (existsSync w programPath) then
    (None, programs, w,
     [enrollFailed ("Error: Program path does not exist: " ++ programPath)])
  else if isProgramEnrolled programs programPath then
    (None, programs, w,
     [enrollFailed ("Error: Program is already enrolled: " ++ programPath)])
  else
    let programName := basename platform programPath in
    let '(newId, w1) := generateId w in
    let '(now, w2) := newDateISO w1 in
    let newProgram := EP.mk newId programName programPath now None in
    let programs' := programs ++ [newProgram] in
    let '(w3, evs) := savePrograms programs' w2 in
    (Some newProgram, programs', w3,
     evs ++ [Log ("Enrolled program: " ++ programName ++ " at " ++ programPath)
                 (Some INFO) false]).

(** [removeProgram(programId)] *)
Definition removeProgram (programId : string) (programs : list EP.t)
    (w : World) : bool * list EP.t * World * list Event :=
  match findIndex (fun p => String.eqb (EP.id p) programId) programs with
  | None => (false, programs, w, [])
  | Some index =>
      match nth_error programs index with
      | None => (false, programs, w, []) (* no such case: [index] is in range *)
      | Some removedProgram =>
          let programs' := splice1 index programs in
          let '(w1, evs) := savePrograms programs' w in
          (true, programs', w1,
           evs ++ [Log ("Removed enrolled program: " ++ EP.name removedProgram)
                       (Some INFO) false])
      end
  end.

(** The assignment [program.lastSeen = now] on the record that
    [getProgramByPath] returns: the first one with that path. *)
Fixpoint stampLastSeen (path now : string) (programs : list EP.t)
  : list EP.t :=
  match programs with
  | [] => []
  | p :: rest =>
      if String.eqb (EP.path p) path
      then EP.mk (EP.id p) (EP.name p) (EP.path p) (EP.enrolledAt p) (Some now)
           :: rest
      else p :: stampLastSeen path now rest
  end.

(** [updateLastSeen(programPath)] *)
Definition updateLastSeen (programPath : string) (programs : list EP.t)
    (w : World) : list EP.t * World * list Event :=
  match getProgramByPath programs programPath with
  | None => (programs, w, [])
  | Some _ =>
      let '(now, w1) := newDateISO w in
      let programs' := stampLastSeen programPath now programs in
      let '(w2, evs) := savePrograms programs' w1 in
      (programs', w2, evs)
  end.

End Manager.
End Registry.

(** ** [MonitoringManager] *)

Module MonitoringManager.
Section Manager.
Context {R : Runtime}.

Definition isBrowserMonitored : bool := false.

(** [isMonitored(path)] *)
Definition isMonitored (programs : list EnrolledProgram.t) (path : string)
  : bool :=
  Registry.isProgramEnrolled programs path.

(** [set(appData, monitor)] *)
Definition set (appData : AppData) (monitor : bool)
    (programs : list EnrolledProgram.t) (w : World)
  : list EnrolledProgram.t * World * list Event :=
  if monitor then
    let '(_, programs', w', evs) :=
      Registry.enrollProgram (app_path appData) programs w in
    (programs', w', evs)
  else
    match Registry.getProgramByPath programs (app_path appData) with
    | Some program =>
        let '(_, programs', w', evs) :=
          Registry.removeProgram (EnrolledProgram.id program) programs w in
        (programs', w', evs)
    | None => (programs, w, [])
    end.

(** [monitoredKey(path)] *)
Definition monitoredKey (path : string) : string :=
  "is_" ++ path ++ "_monitored".

End Manager.
End MonitoringManager.

(** ** [ProcessMonitor] *)

Module ProcessMonitor.
Import JsString NodePath Host.
Module RP := RunningProcess.

Section Monitor.
Context {R : Runtime}.

Definition platformName (p : Platform) : string :=
  match p with
  | linux => "linux"
  | darwin => "darwin"
  | win32 => "win32"
  | otherPlatform name => name
  end.

Definition newline : string := String (ascii_of_nat 10) EmptyString.
Definition quote : ascii := ascii_of_nat 34.
Definition quoteCommaQuote : string :=
  String quote (String ","%char (String quote EmptyString)).

(** The [map] callback of [getLinuxProcesses] and [getMacProcesses] *)
Definition parsePsLine (line : string) : option RP.t :=
  match splitWhitespace (trim line) with
  | p0 :: p1 :: p2 :: rest =>
      Some (RP.mk (parseInt p0) p1 (join " " (p2 :: rest)))
  | _ => None
  end.

(** The [map] callback of [getWindowsProcesses] *)
Definition parseTasklistLine (line : string) : option RP.t :=
  match map (removeAll quote) (split quoteCommaQuote line) with
  | p0 :: p1 :: _ =>
      let name := p0 in
      let pid := parseInt p1 in
      let command := name in
      Some (RP.mk pid name command)
  | _ => None
  end.

(** [.map(parse).filter(proc => proc !== null)] *)
Fixpoint mapFilter {A B : Type} (f : A -> option B) (l : list A) : list B :=
  match l with
  | [] => []
  | x :: l' =>
      match f x with
      | Some y => y :: mapFilter f l'
      | None => mapFilter f l'
      end
  end.

Definition parseLinux (stdout : string) : list RP.t :=
  mapFilter parsePsLine (split newline (trim stdout)).

Definition parseMac (stdout : string) : list RP.t :=
  mapFilter parsePsLine (skipn 1 (split newline (trim stdout))).

Definition parseWindows (stdout : string) : list RP.t :=
  mapFilter parseTasklistLine (split newline (trim stdout)).

Definition listWith (cmd osName : string) (parse : string -> list RP.t)
    (w : World) : list RP.t * World * list Event :=
  let '(result, w1) := execAsync w cmd in
  match result with
  | ExecStdout stdout => (parse stdout, w1, [Exec cmd])
  | ExecFailed error =>
      ([], w1,
       [Exec cmd;
        Log ("Failed to get " ++ osName ++ " processes: " ++ error)
            (Some ERROR) true])
  end.

(** [getLinuxProcesses()] *)
Definition getLinuxProcesses : World -> list RP.t * World * list Event :=
  listWith "ps -eo pid,comm,cmd --no-headers" "Linux" parseLinux.

(** [getMacProcesses()] *)
Definition getMacProcesses : World -> list RP.t * World * list Event :=
  listWith "ps -eo pid,comm,command" "macOS" parseMac.

(** [getWindowsProcesses()] *)
Definition getWindowsProcesses : World -> list RP.t * World * list Event :=
  listWith "tasklist /fo csv /nh" "Windows" parseWindows.

(** [getRunningProcesses()] *)
Definition getRunningProcesses (w : World) : list RP.t * World * list Event :=
  match platform with
  | linux => getLinuxProcesses w
  | darwin => getMacProcesses w
  | win32 => getWindowsProcesses w
  | otherPlatform name =>
      ([], w,
       [Log ("Failed to get running processes: Error: Unsupported platform: "
             ++ name) (Some ERROR) true])
  end.

(** The callback of [processes.some] in [isProcessRunning] *)
Definition matchesProcess (executablePath executableName : string)
    (proc : RP.t) : bool :=
  if String.eqb (RP.name proc) executableName then true
  else if includes (RP.command proc) executablePath then true
  else
    let procNameWithoutExt := stripExtension (RP.name proc) in
    let execNameWithoutExt := stripExtension executableName in
    String.eqb procNameWithoutExt execNameWithoutExt.

(** [isProcessRunning] once the snapshot [processes] is at hand *)
Definition isRunningIn (processes : list RP.t) (executablePath : string)
  : bool :=
  let executableName := basename platform executablePath in
  existsb (matchesProcess executablePath executableName) processes.

(** [isProcessRunning(executablePath)] *)
Definition isProcessRunning (executablePath : string) (w : World)
  : bool * World * list Event :=
  let '(processes, w1, evs) := getRunningProcesses w in
  (isRunningIn processes executablePath, w1, evs).

(** [getRunningEnrolledPrograms(enrolledPaths)] *)
Fixpoint getRunningEnrolledPrograms (enrolledPaths : list string) (w : World)
  : list string * World * list Event :=
  match enrolledPaths with
  | [] => ([], w, [])
  | programPath :: rest =>
      let '(isRunning, w1, evs1) := isProcessRunning programPath w in
      let '(runningPrograms, w2, evs2) := getRunningEnrolledPrograms rest w1 in
      (if isRunning then programPath :: runningPrograms else runningPrograms,
       w2, evs1 ++ evs2)
  end.

End Monitor.
End ProcessMonitor.

(** ** [ProcessWatcher]

    A cycle ([checkEnrolledPrograms]) is asynchronous in the source; here it
    runs to completion at the point where it is launched. *)

Module ProcessWatcher.
Import JsString NodePath Host.
Module EP := EnrolledProgram.

(** The instance fields *)
Record t := mk {
  intervalId : option nat;
  monitoringInterval : N;
  lastReportedPrograms : list string
}.

(** The fields of a new instance *)
Definition create : t := mk None 60000 [].

Section Watcher.
Context {R : Runtime}.

(** [set.has(x)] *)
Definition has (set : list string) (x : string) : bool :=
  existsb (String.eqb x) set.

(** [new Set(array)]: the distinct elements in the order they first occur *)
Fixpoint newSet (array : list string) : list string :=
  match array with
  | [] => []
  | x :: rest => x :: filter (fun y => negb (String.eqb y x)) (newSet rest)
  end.

(** The [languageMap] literal, in the order [Object.entries] lists it *)
Definition languageMap : list (string * string) :=
  [ ("code", "TypeScript");
    ("code-oss", "TypeScript");
    ("codium", "TypeScript");
    ("vim", "Vim Script");
    ("nvim", "Vim Script");
    ("neovim", "Vim Script");
    ("emacs", "Emacs Lisp");
    ("nano", "Text");
    ("gedit", "Text");
    ("kate", "Text");
    ("atom", "Text");
    ("sublime_text", "Text");
    ("webstorm", "JavaScript");
    ("phpstorm", "PHP");
    ("pycharm", "Python");
    ("intellij", "Java");
    ("eclipse", "Java");
    ("netbeans", "Java");
    ("rider", "C#");
    ("clion", "C++");
    ("goland", "Go");
    ("rubymine", "Ruby") ].

Fixpoint lookupLanguage (entries : list (string * string))
    (programName : string) : string :=
  match entries with
  | [] => "Other"
  | (key, language) :: rest =>
      if includes programName key then language
      else lookupLanguage rest programName
  end.

(** [determineLanguageFromPath(programPath)] *)
Definition determineLanguageFromPath (programPath : string) : string :=
  let programName := toLowerCase (basename platform programPath) in
  lookupLanguage languageMap programName.

(** The heartbeat [sendProgramHeartbeat] hands to [wakatime.sendHeartbeat] *)
Definition programHeartbeat (program : EP.t) (programPath : string)
  : Heartbeat :=
  let appData :=
    mkAppData (EP.id program) (EP.name program) programPath None None None
      false true false (EP.name program) in
  let windowInfo :=
    mkWindowInfo 0 platform (EP.name program)
      (mkPosition 0 0 0 0 false) (mkUsage 0 0) EmptyString
      (mkWindowProcess (EP.name program) programPath 0) in
  mkHeartbeat appData windowInfo (EP.name program) programPath "app"
    "coding" (determineLanguageFromPath programPath) false.

(** [sendProgramHeartbeat(programPath)] *)
Definition sendProgramHeartbeat (programPath : string)
    (programs : list EP.t) : list Event :=
  match Registry.getProgramByPath programs programPath with
  | None => []
  | Some program =>
      [SendHeartbeat (programHeartbeat program programPath);
       Log ("Sent heartbeat for " ++ EP.name program) (Some DEBUG) false]
  end.

(** The loop [Log newly detected programs] *)
Definition logDetected (programs : list EP.t) (last running : list string)
  : list Event :=
  flat_map
    (fun programPath =>
       if negb (has last programPath) then
         match Registry.getProgramByPath programs programPath with
         | Some program =>
             [Log ("Detected enrolled program running: " ++ EP.name program)
                  (Some INFO) false]
         | None => []
         end
       else [])
    running.

(** The loop [Log programs that stopped running] *)
Definition logStopped (programs : list EP.t) (last current : list string)
  : list Event :=
  flat_map
    (fun programPath =>
       if negb (has current programPath) then
         match Registry.getProgramByPath programs programPath with
         | Some program =>
             [Log ("Enrolled program stopped: " ++ EP.name program)
                  (Some INFO) false]
         | None => []
         end
       else [])
    last.

(** The loop [Send heartbeats for all running programs] *)
Fixpoint sendHeartbeats (running : list string) (programs : list EP.t)
    (w : World) : list EP.t * World * list Event :=
  match running with
  | [] => (programs, w, [])
  | programPath :: rest =>
      let evs1 := sendProgramHeartbeat programPath programs in
      let '(programs1, w1, evs2) :=
        Registry.updateLastSeen programPath programs w in
      let '(programs2, w2, evs3) := sendHeartbeats rest programs1 w1 in
      (programs2, w2, evs1 ++ evs2 ++ evs3)
  end.

(** [checkEnrolledPrograms()]: the new [lastReportedPrograms], the registry's
    records, the world and the events of the cycle. *)
Definition checkEnrolledPrograms (last : list string) (programs : list EP.t)
    (w : World) : list string * list EP.t * World * list Event :=
  let enrolledPaths := Registry.getEnrolledPaths programs in
  match enrolledPaths with
  | [] => (last, programs, w, [])
  | _ :: _ =>
      let '(runningPrograms, w1, evs0) :=
        ProcessMonitor.getRunningEnrolledPrograms enrolledPaths w in
      let currentRunningSet := newSet runningPrograms in
      let evs1 := logDetected programs last runningPrograms in
      let evs2 := logStopped programs last currentRunningSet in
      let '(programs1, w2, evs3) := sendHeartbeats runningPrograms programs w1 in
      (currentRunningSet, programs1, w2, evs0 ++ evs1 ++ evs2 ++ evs3)
  end.

(** [stop()] *)
Definition stop (self : t) (w : World) : t * World * list Event :=
  match intervalId self with
  | Some handle =>
      (mk None (monitoringInterval self) (lastReportedPrograms self),
       clearInterval w handle,
       [ClearInterval handle;
        Log "Stopped process monitoring" (Some INFO) false])
  | None => (self, w, [])
  end.

(** [start()] *)
Definition start (self : t) (programs : list EP.t) (w : World)
  : t * list EP.t * World * list Event :=
  let '(self1, w1, evs1) :=
    match intervalId self with
    | Some _ => stop self w
    | None => (self, w, [])
    end in
  let evs2 :=
    [Log ("Starting process monitoring with "
          ++ toString10 (monitoringInterval self1) ++ "ms interval")
         (Some INFO) false] in
  let '(last, programs1, w2, evs3) :=
    checkEnrolledPrograms (lastReportedPrograms self1) programs w1 in
  let '(handle, w3) := setInterval w2 in
  (mk (Some handle) (monitoringInterval self1) last, programs1, w3,
   evs1 ++ evs2 ++ evs3 ++ [SetInterval handle (monitoringInterval self1)]).

(** [setMonitoringInterval(intervalMs)] *)
Definition setMonitoringInterval (intervalMs : N) (self : t)
    (programs : list EP.t) (w : World) : t * list EP.t * World * list Event :=
  let self1 := mk (intervalId self) intervalMs (lastReportedPrograms self) in
  match intervalId self1 with
  | Some _ =>
      let '(self2, w1, evs1) := stop self1 w in
      let '(self3, programs1, w2, evs2) := start self2 programs w1 in
      (self3, programs1, w2, evs1 ++ evs2)
  | None => (self1, programs, w, [])
  end.

(** The callback of [setInterval]: one firing of the timer *)
Definition tick (self : t) (programs : list EP.t) (w : World)
  : t * list EP.t * World * list Event :=
  let '(last, programs1, w1, evs) :=
    checkEnrolledPrograms (lastReportedPrograms self) programs w in
  (mk (intervalId self) (monitoringInterval self) last, programs1, w1, evs).

(** [isRunning()] *)
Definition isRunning (self : t) : bool :=
  match intervalId self with
  | Some _ => true
  | None => false
  end.


(** [getCurrentlyRunningPrograms()] *)
Definition getCurrentlyRunningPrograms (self : t) : list string :=
  lastReportedPrograms self.

End Watcher.
End ProcessWatcher.

(** ** [Watcher] (window and keyboard mode)

    The callback handed to [subscribeActiveWindow] has the same body in
    both versions of watcher.ts. *)

Module Watcher.
Import Host.

(** The instance fields *)
Record t := mk {
  activeWindow : option WindowInfo;
  activeWindowSubscription : option N;
  isWatchingForKeyboardEvents : bool;
  fallbackMode : bool
}.

(** The fields of a new instance *)
Definition create : t := mk None None false false.

Section Watcher.
Context {R : Runtime}.

(** [watchKeyboardEvents()] *)
Definition watchKeyboardEvents (self : t) : t * list Event :=
  (mk (activeWindow self) (activeWindowSubscription self) true
      (fallbackMode self),
   [AddKeyListener]).

(** [unwatchKeyboardEvents()] *)
Definition unwatchKeyboardEvents (self : t) : t * list Event :=
  (mk (activeWindow self) (activeWindowSubscription self) false
      (fallbackMode self),
   [RemoveKeyListener]).

(** [this.activeWindow?.info.name || "nil"] *)
Definition previousName (self : t) : string :=
  match activeWindow self with
  | Some window =>
      if String.eqb (info_name (win_info window)) EmptyString then "nil"
      else info_name (win_info window)
  | None => "nil"
  end.

(** [this.activeWindow?.info.processId === windowInfo.info.processId] *)
Definition sameProcess (self : t) (windowInfo : WindowInfo) : bool :=
  match activeWindow self with
  | Some window =>
      N.eqb (info_processId (win_info window))
            (info_processId (win_info windowInfo))
  | None => false
  end.

(** The callback handed to [subscribeActiveWindow] in [start()];
    [programs] are the records of the registry [isMonitored] consults. *)
Definition onActiveWindow (windowInfo : WindowInfo) (self : t)
    (programs : list EnrolledProgram.t) : t * list Event :=
  if N.eqb (info_processId (win_info windowInfo)) 0 then (self, [])
  else if sameProcess self windowInfo then (self, [])
  else
    let '(self1, evs1) :=
      if isWatchingForKeyboardEvents self then unwatchKeyboardEvents self
      else (self, []) in
    let evs2 :=
      [Log ("App changed from " ++ previousName self1 ++ " to "
            ++ info_name (win_info windowInfo)) None false] in
    let self2 :=
      mk (Some windowInfo) (activeWindowSubscription self1)
         (isWatchingForKeyboardEvents self1) (fallbackMode self1) in
    let path := info_path (win_info windowInfo) in
    if String.eqb path EmptyString then (self2, evs1 ++ evs2)
    else if MonitoringManager.isMonitored programs path then
      let '(self3, evs3) := watchKeyboardEvents self2 in
      (self3,
       evs1 ++ evs2 ++
       Log ("Monitoring " ++ info_name (win_info windowInfo) ++ ": " ++ path)
           None false :: evs3)
    else
      (self2,
       evs1 ++ evs2 ++
       [Log ("Not monitoring " ++ info_name (win_info windowInfo) ++ ": "
             ++ path) None false]).

(** [start()]; [subscription] is what [subscribeActiveWindow] answers: a
    handle, or the error it throws. *)
Definition start (subscription : string + N) (self : t) : t * list Event :=
  match subscription with
  | inr handle =>
      (mk (activeWindow self) (Some handle)
          (isWatchingForKeyboardEvents self) (fallbackMode self),
       [SubscribeActiveWindow])
  | inl error =>
      let self1 :=
        mk (activeWindow self) (activeWindowSubscription self)
           (isWatchingForKeyboardEvents self) true in
      let '(self2, evs) := watchKeyboardEvents self1 in
      (self2,
       SubscribeActiveWindow ::
       Log ("Failed to start window monitoring: " ++ error ++
            ". This might be due to missing DBus services on Wayland. Window monitoring will be limited.")
           (Some ERROR) false :: evs)
  end.

(** [stop()]; [unsubscribeError] is the error [unsubscribeActiveWindow]
    throws, if it does. *)
Definition stop (unsubscribeError : option string) (self : t)
  : t * list Event :=
  let '(self1, evs1) :=
    match activeWindowSubscription self with
    | Some handle =>
        (mk (activeWindow self) None (isWatchingForKeyboardEvents self)
            (fallbackMode self),
         UnsubscribeActiveWindow handle ::
         match unsubscribeError with
         | Some error =>
             [Log ("Failed to unsubscribe from window monitoring: " ++ error)
                  (Some WARN) false]
         | None => []
         end)
    | None => (self, [])
    end in
  let '(self2, evs2) := unwatchKeyboardEvents self1 in
  (self2, evs1 ++ evs2).

End Watcher.
End Watcher.

(** ** [main.ts]: the handlers that use the registry and the watcher *)

Module Main.
Import JsString.
Module EP := EnrolledProgram.

(** [url.replace(pattern, '')] for a string [pattern]: the first occurrence
    is removed. *)
Fixpoint removeFirst (pattern s : string) : string :=
  if startsWith s pattern then substr (String.length pattern) s
  else match s with
       | EmptyString => EmptyString
       | String c s' => String c (removeFirst pattern s')
       end.

(** [s.slice(0, -1)] *)
Fixpoint dropLastChar (s : string) : string :=
  match s with
  | EmptyString => EmptyString
  | String c EmptyString => EmptyString
  | String c s' => String c (dropLastChar s')
  end.

Definition WAKATIME_PROTOCALL : string := "wakatime".

(** What a deep link makes the application open *)
Inductive DeepLinkAction := OpenSettings | OpenEnrolledPrograms | NoAction.

(** [handleDeepLink(url)] *)
Definition handleDeepLink (url : string) : DeepLinkAction :=
  let pathname := removeFirst (WAKATIME_PROTOCALL ++ "://") url in
  if String.eqb pathname "settings" then OpenSettings
  else if String.eqb pathname "monitoredApps" then OpenEnrolledPrograms
  else NoAction.

(** The handler of [second-instance]: [commandLine.pop()?.slice(0, -1)] *)
Definition onSecondInstance (commandLine : list string) : DeepLinkAction :=
  match rev commandLine with
  | [] => NoAction
  | lastArg :: _ =>
      let url := dropLastChar lastArg in
      if String.eqb url EmptyString then NoAction else handleDeepLink url
  end.

(** The object [getOpenApps] and [getAllAvailableApps] make of a record *)
Definition enrolledAsApp (program : EP.t) : AppData :=
  mkAppData (EP.path program) (EP.name program) (EP.path program)
    None None None false false false (EP.name program).

(** [array.includes(x)] *)
Definition arrayIncludes (array : list string) (x : string) : bool :=
  existsb (String.eqb x) array.

(** The handler of [IpcKeys.getOpenApps]; [watcher] is [None] while the
    module variable is [null]. *)
Definition getOpenApps (programs : list EP.t)
    (watcher : option ProcessWatcher.t) : list AppData :=
  let enrolledPrograms := Registry.getAllPrograms programs in
  let runningPrograms :=
    match watcher with
    | Some self => ProcessWatcher.getCurrentlyRunningPrograms self
    | None => []
    end in
  map enrolledAsApp
    (filter (fun program => arrayIncludes runningPrograms (EP.path program))
       enrolledPrograms).

(** The body of [enrolledAsApps.forEach] in [getAllAvailableApps] *)
Definition pushIfAbsent (allApps : list AppData) (enrolledApp : AppData)
  : list AppData :=
  match find (fun app => String.eqb (app_path app) (app_path enrolledApp))
             allApps with
  | Some _ => allApps
  | None => allApps ++ [enrolledApp]
  end.

(** The handler of [IpcKeys.getAllAvailableApps]; [apps] is what
    [AppsManager.instance().getAllApps()] returns. *)
Definition getAllAvailableApps (apps : list AppData) (programs : list EP.t)
  : list AppData :=
  let enrolledAsApps := map enrolledAsApp (Registry.getAllPrograms programs) in
  fold_left pushIfAbsent enrolledAsApps apps.

End Main.

(** ** [Watcher.globalKeyListener]

    [AppsManager] and [MonitoredApp] are not part of the sources at hand:
    what they answer is taken as given, an error they throw as its message. *)

Module KeyListener.

Section Listener.
(** What [MonitoredApp.heartbeatData] returns *)
Variable HeartbeatData : Type.
(** [AppsManager.instance().getApp(path)] *)
Variable getApp : string -> string + option AppData.
(** [MonitoredApp.heartbeatData(window, app)] *)
Variable heartbeatData :
  WindowInfo -> option AppData -> string + option HeartbeatData.

(** The argument of [wakatime.sendHeartbeat] in the listener *)
Record KeyHeartbeat := mkKeyHeartbeat {
  kh_appData : option AppData;
  kh_windowInfo : WindowInfo;
  kh_data : HeartbeatData;
  kh_entityType : string;
  kh_isWrite : bool
}.

Inductive Effect :=
| KeyLog (message : string) (level : LogLevel) (external : bool)
| KeySendHeartbeat (h : KeyHeartbeat).

Definition withFallbackMode (self : Watcher.t) : Watcher.t :=
  Watcher.mk (Watcher.activeWindow self)
    (Watcher.activeWindowSubscription self)
    (Watcher.isWatchingForKeyboardEvents self) true.

(** [globalKeyListener(event)]; [state] is [event.state] and [window] what
    [activeWindow()] answers at this event: the window, or the error it
    throws. *)
Definition globalKeyListener (state : string) (window : string + WindowInfo)
    (self : Watcher.t) : Watcher.t * list Effect :=
  if negb (String.eqb state "DOWN") then (self, [])
  else
    match window with
    | inl error =>
        if Watcher.fallbackMode self then (self, [])
        else
          (withFallbackMode self,
           [KeyLog ("Failed to get active window: " ++ error ++
                    ". This might be due to missing DBus services on Wayland. Switching to fallback mode.")
                   WARN false])
    | inr win =>
        match getApp (info_path (win_info win)) with
        | inl message => (self, [KeyLog message ERROR true])
        | inr app =>
            match heartbeatData win app with
            | inl message => (self, [KeyLog message ERROR true])
            | inr None => (self, [])
            | inr (Some data) =>
                (self,
                 [KeySendHeartbeat (mkKeyHeartbeat app win data "app" false)])
            end
        end
    end.

(** The key events of a session, handled in turn *)
Fixpoint handleKeys (events : list (string * (string + WindowInfo)))
    (self : Watcher.t) : Watcher.t * list Effect :=
  match events with
  | [] => (self, [])
  | (state, window) :: rest =>
      let '(self1, effects1) := globalKeyListener state window self in
      let '(self2, effects2) := handleKeys rest self1 in
      (self2, effects1 ++ effects2)
  end.

End Listener.
End KeyListener.

(** ** Vocabulary of the specification *)

Module Spec.
Import JsString NodePath Host.
Module EP := EnrolledProgram.
Module RP := RunningProcess.

(** [sub] occurs in [s] *)
Definition IsSubstring (sub s : string) : Prop :=
  exists pre post, s = (pre ++ sub ++ post)%string.

Definition chars (s : string) : list ascii := list_ascii_of_string s.

(** [s] ends with the extension [ext]: a dot, then one character or more,
    none of them a dot or a slash. *)
Definition HasExtension (s stem ext : string) : Prop :=
  s = (stem ++ "." ++ ext)%string /\
  ext <> EmptyString /\
  forall c, In c (chars ext) -> c <> "."%char /\ c <> "/"%char.

(** [t] is [s] without its trailing extension, and [s] itself when [s] has
    none. *)
Definition Stripped (s t : string) : Prop :=
  (exists ext, HasExtension s t ext) \/
  ((forall stem ext, ~ HasExtension s stem ext) /\ t = s).


(** The transitions a cycle of the polling watcher reports in its log *)
Inductive Transition := Entered (name : string) | Exited (name : string).

Definition detectedPrefix : string := "Detected enrolled program running: ".
Definition stoppedPrefix : string := "Enrolled program stopped: ".

Definition transitionOf (e : Event) : list Transition :=
  match e with
  | Log message (Some INFO) _ =>
      if startsWith message detectedPrefix
      then [Entered (substr (String.length detectedPrefix) message)]
      else if startsWith message stoppedPrefix
      then [Exited (substr (String.length stoppedPrefix) message)]
      else []
  | _ => []
  end.

Definition transitions (evs : list Event) : list Transition :=
  flat_map transitionOf evs.

Definition heartbeatOf (e : Event) : list Heartbeat :=
  match e with
  | SendHeartbeat h => [h]
  | _ => []
  end.

(** The heartbeats dispatched, in order *)
Definition heartbeats (evs : list Event) : list Heartbeat :=
  flat_map heartbeatOf evs.

Definition execOf (e : Event) : list string :=
  match e with
  | Exec cmd => [cmd]
  | _ => []
  end.

(** The commands run, in order *)
Definition scans (evs : list Event) : list string := flat_map execOf evs.

(** Events that are neither a transition nor a heartbeat *)
Definition silent (e : Event) : Prop :=
  transitionOf e = [] /\ heartbeatOf e = [].

(** What identifies a record: all of it but [lastSeen] *)
Definition identity (p : EP.t) : string * string * string * string :=
  (EP.id p, EP.name p, EP.path p, EP.enrolledAt p).


Section Polling.
Context {R : Runtime}.

(** What the scanner reports for the enrolled paths in world [w] *)
Definition scanReports (w : World) (enrolledPaths : list string)
  : list string :=
  fst (fst (ProcessMonitor.getRunningEnrolledPrograms enrolledPaths w)).

(** The record [enrollProgram] builds for a path in world [w] *)
Definition enrolledRecord (programPath : string) (w : World) : EP.t :=
  EP.mk (toString36 (clock w (clock_reads w)) ++
         substr 2 (random36 w (random_draws w)))
        (basename platform programPath)
        programPath
        (toISOString (clock w (S (clock_reads w))))
        None.


(** The heartbeat of one running path, from the records [programs] *)
Definition heartbeatFor (programs : list EP.t) (programPath : string)
  : list Heartbeat :=
  match Registry.getProgramByPath programs programPath with
  | Some program => [ProcessWatcher.programHeartbeat program programPath]
  | None => []
  end.

(** The transitions of one cycle: who entered, then who left *)
Definition enteredFor (programs : list EP.t) (last : list string)
    (programPath : string) : list Transition :=
  if ProcessWatcher.has last programPath then []
  else match Registry.getProgramByPath programs programPath with
       | Some program => [Entered (EP.name program)]
       | None => []
       end.

Definition exitedFor (programs : list EP.t) (current : list string)
    (programPath : string) : list Transition :=
  if ProcessWatcher.has current programPath then []
  else match Registry.getProgramByPath programs programPath with
       | Some program => [Exited (EP.name program)]
       | None => []
       end.

(** Two worlds with the same timers *)
Definition sameTimers (w w' : World) : Prop :=
  timers w' = timers w /\ timer_seq w' = timer_seq w.

(** The polling watcher with the registry and the world it runs in *)
Record System := mkSystem {
  world : World;
  programs : list EP.t;
  watcher : ProcessWatcher.t
}.

(** The calls a host makes on the polling watcher, and the firing of its
    timer. *)
Inductive Call :=
| CallStart
| CallStop
| CallSetMonitoringInterval (intervalMs : N)
| TimerFires.

Definition call (c : Call) (s : System) : System :=
  match c with
  | CallStart =>
      let '(self, ps, w, _) :=
        ProcessWatcher.start (watcher s) (programs s) (world s) in
      mkSystem w ps self
  | CallStop =>
      let '(self, w, _) := ProcessWatcher.stop (watcher s) (world s) in
      mkSystem w (programs s) self
  | CallSetMonitoringInterval ms =>
      let '(self, ps, w, _) :=
        ProcessWatcher.setMonitoringInterval ms (watcher s) (programs s)
          (world s) in
      mkSystem w ps self
  | TimerFires =>
      match ProcessWatcher.intervalId (watcher s) with
      | Some _ =>
          let '(self, ps, w, _) :=
            ProcessWatcher.tick (watcher s) (programs s) (world s) in
          mkSystem w ps self
      | None => s
      end
  end.

(** One cycle of the watcher, with its events *)
Definition cycle (s : System) : System * list Event :=
  let '(self, ps, w, evs) :=
    ProcessWatcher.tick (watcher s) (programs s) (world s) in
  (mkSystem w ps self, evs).

Definition run (calls : list Call) (s : System) : System :=
  fold_left (fun s c => call c s) calls s.

(** The timer the watcher holds, if any *)
Definition held (self : ProcessWatcher.t) : list nat :=
  match ProcessWatcher.intervalId self with
  | Some handle => [handle]
  | None => []
  end.

(** The armed timers are exactly the one the watcher holds, if any. *)
Definition OneTimer (s : System) : Prop :=
  timers (world s) = held (watcher s).

End Polling.
End Spec.

(** ** Vocabulary of the further properties *)

Module Laws.
Import JsString NodePath Host.
Module EP := EnrolledProgram.
Module RP := RunningProcess.

(** [l'] is [l] with some elements left out, the order kept. *)
Inductive Subseq {A : Type} : list A -> list A -> Prop :=
| Subseq_nil : Subseq [] []
| Subseq_skip x l' l : Subseq l' l -> Subseq l' (x :: l)
| Subseq_keep x l' l : Subseq l' l -> Subseq (x :: l') (x :: l).

(** No character of [s] is white space. *)
Definition NoWhiteSpace (s : string) : Prop :=
  forall c, In c (list_ascii_of_string s) -> isWhiteSpace c = false.

(** The key listeners attached once the events [evs] have happened, [n]
    being attached before: removing a listener that is not attached does
    nothing. *)
Definition attachedAfter (n : nat) (evs : list Event) : nat :=
  fold_left
    (fun k e =>
       match e with
       | AddKeyListener => S k
       | RemoveKeyListener => pred k
       | _ => k
       end)
    evs n.

(** The listeners attached according to the flag of the watcher *)
Definition flagged (self : Watcher.t) : nat :=
  if Watcher.isWatchingForKeyboardEvents self then 1 else 0.

(** The focus events of a session, handled in turn over the records
    [programs]. *)
Fixpoint handleFocus (windows : list WindowInfo)
    (programs : list EP.t) (self : Watcher.t) : Watcher.t * list Event :=
  match windows with
  | [] => (self, [])
  | windowInfo :: rest =>
      let '(self1, evs1) := Watcher.onActiveWindow windowInfo self programs in
      let '(self2, evs2) := handleFocus rest programs self1 in
      (self2, evs1 ++ evs2)
  end.

(** The keyboard is watched exactly when the window tracked has a path and
    the path is enrolled. *)
Definition TracksEnrollment (programs : list EP.t) (self : Watcher.t)
  : Prop :=
  Watcher.isWatchingForKeyboardEvents self =
  match Watcher.activeWindow self with
  | Some window =>
      negb (String.eqb (info_path (win_info window)) EmptyString) &&
      MonitoringManager.isMonitored programs (info_path (win_info window))
  | None => false
  end.

(** The warnings among the effects of the key listener *)
Definition warnings {D : Type} (effects : list (KeyListener.Effect D))
  : list string :=
  flat_map
    (fun e =>
       match e with
       | KeyListener.KeyLog _ message WARN _ => [message]
       | _ => []
       end)
    effects.

Section Registry.
Context {R : Runtime}.

(** The calls a host makes on the registry *)
Inductive RegistryCall :=
| CallEnroll (programPath : string)
| CallRemove (programId : string)
| CallUpdateLastSeen (programPath : string).

Definition registryCall (c : RegistryCall) (s : list EP.t * World)
  : list EP.t * World :=
  let '(programs, w) := s in
  match c with
  | CallEnroll programPath =>
      let '(_, programs', w', _) :=
        Registry.enrollProgram programPath programs w in
      (programs', w')
  | CallRemove programId =>
      let '(_, programs', w', _) :=
        Registry.removeProgram programId programs w in
      (programs', w')
  | CallUpdateLastSeen programPath =>
      let '(programs', w', _) :=
        Registry.updateLastSeen programPath programs w in
      (programs', w')
  end.

Definition registryRun (calls : list RegistryCall) (s : list EP.t * World)
  : list EP.t * World :=
  fold_left (fun s c => registryCall c s) calls s.

(** The paths of the records are pairwise distinct. *)
Definition DistinctPaths (programs : list EP.t) : Prop :=
  NoDup (Registry.getEnrolledPaths programs).

(** Every record's path exists on disk. *)
Definition AllOnDisk (w : World) (programs : list EP.t) : Prop :=
  forall p, In p programs -> existsSync w (EP.path p) = true.

(** The data file holds the records in memory. *)
Definition Synced (w : World) (programs : list EP.t) : Prop :=
  fs w dataFilePath = Some (File (JSON_stringify programs)).

(** Two worlds with the same files and the same faults *)
Definition sameDisk (w w' : World) : Prop :=
  fs w' = fs w /\ fs_fault w' = fs_fault w.

(** The table of editors without the entries [code-oss], [nvim] and
    [neovim] *)
Definition liveLanguageMap : list (string * string) :=
  filter
    (fun entry =>
       negb (existsb (String.eqb (fst entry)) ["code-oss"; "nvim"; "neovim"]))
    ProcessWatcher.languageMap.

(** The command [getRunningProcesses] runs on a platform *)
Definition listingCommand (p : Platform) : option string :=
  match p with
  | linux => Some "ps -eo pid,comm,cmd --no-headers"
  | darwin => Some "ps -eo pid,comm,command"
  | win32 => Some "tasklist /fo csv /nh"
  | otherPlatform _ => None
  end.

End Registry.
End Laws.

(** ** A sample host, for concrete runs *)

Module Sample.
Import JsString NodePath Host.
Module EP := EnrolledProgram.
Module RP := RunningProcess.

Definition code : EP.t :=
  EP.mk "loyw3v27k0q" "code" "/usr/bin/code" "2023-11-14T22:13:19.999Z" None.


Definition vim : EP.t :=
  EP.mk "loyw3v29xyz" "vim" "/usr/bin/vim" "2023-11-14T22:13:21.000Z" None.

(** A second record for the path of [code], as a hand-edited data file can
    hold it. *)
Definition codeAgain : EP.t :=
  EP.mk "loyw3v2aq1" "code" "/usr/bin/code" "2023-11-14T22:13:22.000Z" None.

(** Stand-ins for the library functions: the data file is written as the
    list of the paths, and three documents are told apart by their names. *)
Definition runtimeOn (plat : Platform) : Runtime :=
  {| platform := plat;
     dataFilePath := "/home/user/.wakatime/enrolled-programs.json";
     dataDir := "/home/user/.wakatime";
     toISOString := fun ms => toString10 ms;
     JSON_stringify := fun programs => join "," (map EP.path programs);
     schema_parse := fun data =>
       if String.eqb data "/usr/bin/code,/usr/bin/vim" then inr [code; vim]
       else if String.eqb data "/usr/bin/code,/usr/bin/code"
       then inr [code; codeAgain]
       else if String.eqb data "/usr/bin/code" then inr [code]
       else inl "SyntaxError: Unexpected token in JSON at position 0"%string;
     parseInt := fun _ => None |}.

Definition runtime : Runtime := runtimeOn linux.

(** A disk with the data directory, the data file if [dataFile] is given,
    and the executables [present]. *)
Definition disk (dataFile : option string) (present : list string)
    (p : string) : option FsNode :=
  if String.eqb p "/home/user/.wakatime/enrolled-programs.json"
  then option_map File dataFile
  else if String.eqb p "/home/user/.wakatime" then Some Dir
  else if existsb (String.eqb p) present then Some (File "ELF")
  else None.

Definition psCode : string := "  412 code /usr/bin/code --unity-launch".
Definition psVim : string := "  977 vim /usr/bin/vim notes.txt".
Definition psInit : string := "    1 systemd /sbin/init splash".

(** The listing each scan of a sample run sees: the two scans of the first
    cycle find [code], those of the second [code] and [vim], later ones
    [vim]. *)
Definition psOutput (n : nat) (cmd : string) : ExecResult :=
  let nl := ProcessMonitor.newline in
  if (n <? 2)%nat then ExecStdout (psInit ++ nl ++ psCode ++ nl)
  else if (n <? 4)%nat then ExecStdout (psInit ++ nl ++ psCode ++ nl ++ psVim ++ nl)
  else ExecStdout (psInit ++ nl ++ psVim ++ nl).




Definition worldWith (dataFile : option string) (present : list string)
  : World :=
  mkWorld (disk dataFile present) (fun _ => None)
    (fun n => (1700000000000 + N.of_nat n)%N) 0
    (fun _ => "0.abc") 0
    psOutput 0 [] 0.

Definition world : World :=
  worldWith (Some "/usr/bin/code,/usr/bin/vim")
    ["/usr/bin/code"; "/usr/bin/vim"; "/usr/bin/nano"].

(** The same, after [/usr/bin/vim] was deleted *)
Definition worldWithoutVim : World :=
  worldWith (Some "/usr/bin/code,/usr/bin/vim")
    ["/usr/bin/code"; "/usr/bin/nano"].


Definition window (name path : string) (processId : N) : WindowInfo :=
  mkWindowInfo 7 linux name (mkPosition 0 0 800 600 false) (mkUsage 0 0)
    EmptyString (mkWindowProcess name path processId).

End Sample.

(** ** Further sample worlds *)

Module SampleMore.
Import JsString NodePath Host.
Module EP := EnrolledProgram.
Module RP := RunningProcess.

(** A first run: no data file yet *)
Definition freshWorld : World :=
  Sample.worldWith None ["/usr/bin/code"; "/usr/bin/vim"].

(** A data file that does not parse *)
Definition corruptWorld : World :=
  Sample.worldWith (Some "{ programs: ") ["/usr/bin/code"; "/usr/bin/vim"].

(** A host where the listing command fails at every run *)
Definition failingWorld : World :=
  mkWorld (fs Sample.world) (fun _ => None) (clock Sample.world) 0
    (fun _ => "0.abc") 0
    (fun _ _ => ExecFailed "Error: Command failed: ps -eo pid,comm,cmd --no-headers")
    0 [] 0.

(** The calls of a session on the registry *)
Definition session : list Laws.RegistryCall :=
  [Laws.CallEnroll "/usr/bin/nano";
   Laws.CallUpdateLastSeen "/usr/bin/code";
   Laws.CallEnroll "/usr/bin/code";
   Laws.CallRemove "loyw3v29xyz";
   Laws.CallEnroll "/usr/bin/missing";
   Laws.CallRemove "no-such-id"].

End SampleMore.

(** * Properties *)

(** ** Strings and paths *)

Module StringFacts.
Import JsString NodePath Spec.

Lemma chars_app (a b : string) : chars (a ++ b) = (chars a ++ chars b)%list.
Proof.
  unfold chars. induction a as [|c a IH]; simpl; [reflexivity|].
  now rewrite IH.
Qed.

Lemma length_append (a b : string) :
  String.length (a ++ b) = String.length a + String.length b.
Proof. induction a as [|c a IH]; simpl; [reflexivity|]. now rewrite IH. Qed.

Lemma of_chars (s : string) : string_of_list_ascii (chars s) = s.
Proof. apply string_of_list_ascii_of_string. Qed.

Lemma chars_of (l : list ascii) : chars (string_of_list_ascii l) = l.
Proof. apply list_ascii_of_string_of_list_ascii. Qed.

Lemma of_chars_app (l1 l2 : list ascii) :
  string_of_list_ascii (l1 ++ l2) =
  (string_of_list_ascii l1 ++ string_of_list_ascii l2)%string.
Proof.
  induction l1 as [|c l1 IH]; simpl; [reflexivity|]. now rewrite IH.
Qed.

Lemma startsWith_spec (s sub : string) :
  startsWith s sub = true <-> exists post, s = (sub ++ post)%string.
Proof.
  revert s. induction sub as [|c sub IH]; intros s; simpl.
  - split; [intros _; now exists s | now destruct s].
  - destruct s as [|d s].
    + split; [discriminate | intros [post H]; discriminate].
    + simpl. rewrite andb_true_iff, IH. split.
      * intros [Hc [post ->]]. apply Ascii.eqb_eq in Hc. subst.
        now exists post.
      * intros [post H]. injection H as -> ->. split.
        -- apply Ascii.eqb_refl.
        -- now exists post.
Qed.

Lemma includes_nil (sub : string) :
  includes EmptyString sub = startsWith EmptyString sub || false.
Proof. reflexivity. Qed.

Lemma includes_cons (c : ascii) (s sub : string) :
  includes (String c s) sub = startsWith (String c s) sub || includes s sub.
Proof. reflexivity. Qed.

Lemma includes_spec (s sub : string) :
  includes s sub = true <-> IsSubstring sub s.
Proof.
  unfold IsSubstring. induction s as [|c s IH];
    [rewrite includes_nil | rewrite includes_cons].
  - rewrite orb_false_r, startsWith_spec. split.
    + intros [post H]. now exists EmptyString, post.
    + intros [pre [post H]]. destruct pre; [|discriminate].
      now exists post.
  - rewrite orb_true_iff, startsWith_spec, IH. split.
    + intros [[post H] | [pre [post H]]].
      * now exists EmptyString, post.
      * exists (String c pre), post. simpl. now rewrite H.
    + intros [pre [post H]]. destruct pre as [|d pre].
      * left. now exists post.
      * right. simpl in H. injection H as _ H. now exists pre, post.
Qed.




Lemma takeWhile_app_stop (f : ascii -> bool) (l1 l2 : list ascii) (c : ascii) :
  (forall d, In d l1 -> f d = true) -> f c = false ->
  takeWhile f (l1 ++ c :: l2) = l1.
Proof.
  intros H Hc. induction l1 as [|d l1 IH]; simpl.
  - now rewrite Hc.
  - rewrite (H d) by (simpl; auto). f_equal. apply IH.
    intros e He. apply H. simpl; auto.
Qed.

Lemma dropWhile_app_stop (f : ascii -> bool) (l1 l2 : list ascii) (c : ascii) :
  (forall d, In d l1 -> f d = true) -> f c = false ->
  dropWhile f (l1 ++ c :: l2) = c :: l2.
Proof.
  intros H Hc. induction l1 as [|d l1 IH]; simpl.
  - now rewrite Hc.
  - rewrite (H d) by (simpl; auto). apply IH.
    intros e He. apply H. simpl; auto.
Qed.

Lemma takeWhile_dropWhile (f : ascii -> bool) (l : list ascii) :
  (takeWhile f l ++ dropWhile f l)%list = l.
Proof.
  induction l as [|c l IH]; simpl; [reflexivity|].
  destruct (f c); simpl; [now rewrite IH | reflexivity].
Qed.

Lemma takeWhile_sound (f : ascii -> bool) (l : list ascii) (c : ascii) :
  In c (takeWhile f l) -> f c = true.
Proof.
  induction l as [|d l IH]; simpl; [tauto|].
  destruct (f d) eqn:E; simpl; [|tauto].
  intros [<- | H]; auto.
Qed.

Lemma extChar_spec (c : ascii) :
  extChar c = true <-> c <> "."%char /\ c <> "/"%char.
Proof.
  unfold extChar. rewrite andb_true_iff, !negb_true_iff.
  destruct (Ascii.eqb_spec c "/"), (Ascii.eqb_spec c "."); split;
    intros [H1 H2]; try discriminate; try tauto; split; congruence.
Qed.

(** The extension of a string, when it has one, is what [stripExtension]
    removes. *)
Lemma stripExtension_extension (s stem ext : string) :
  HasExtension s stem ext -> stripExtension s = stem.
Proof.
  intros [-> [Hne Hext]]. unfold stripExtension.
  change (list_ascii_of_string ?x) with (chars x).
  rewrite chars_app. change (chars ("." ++ ext)) with ("."%char :: chars ext).
  rewrite rev_app_distr. simpl rev. rewrite <- app_assoc. simpl app.
  assert (Hall : forall d, In d (rev (chars ext)) -> extChar d = true).
  { intros d Hd. apply extChar_spec. apply Hext. now apply in_rev. }
  rewrite takeWhile_app_stop, dropWhile_app_stop by (auto; reflexivity).
  destruct (rev (chars ext)) as [|d r] eqn:E.
  - exfalso. apply Hne. apply (f_equal (@rev ascii)) in E.
    rewrite rev_involutive in E. simpl in E.
    rewrite <- (of_chars ext), E. reflexivity.
  - rewrite rev_involutive. apply of_chars.
Qed.

(** [stripExtension] changes a string only by removing an extension. *)
Lemma stripExtension_cases (s : string) :
  stripExtension s = s \/ exists ext, HasExtension s (stripExtension s) ext.
Proof.
  unfold stripExtension.
  pose proof (takeWhile_dropWhile extChar (rev (list_ascii_of_string s))) as Hsplit.
  pose proof (takeWhile_sound extChar (rev (list_ascii_of_string s))) as Hsound.
  destruct (takeWhile extChar (rev (list_ascii_of_string s))) as [|d r] eqn:Et;
    [now left|].
  destruct (dropWhile extChar (rev (list_ascii_of_string s))) as [|e rest] eqn:Ed;
    [now left|].
  destruct (Ascii.eqb_spec e "."%char) as [->|Hne].
  - right. exists (string_of_list_ascii (rev (d :: r))).
    unfold HasExtension. repeat split.
    + apply (f_equal (@rev ascii)) in Hsplit.
      rewrite rev_involutive, rev_app_distr in Hsplit. simpl rev in Hsplit.
      rewrite <- app_assoc in Hsplit. simpl app in Hsplit.
      rewrite <- (of_chars s). unfold chars. rewrite <- Hsplit.
      rewrite of_chars_app. simpl. reflexivity.
    + intros H. apply (f_equal chars) in H. rewrite chars_of in H.
      simpl in H. destruct (rev r); discriminate.
    + rewrite chars_of in H. apply in_rev in H. apply Hsound in H.
      now apply extChar_spec in H.
    + rewrite chars_of in H. apply in_rev in H. apply Hsound in H.
      now apply extChar_spec in H.
  - left. destruct e as [b0 b1 b2 b3 b4 b5 b6 b7].
    destruct b0, b1, b2, b3, b4, b5, b6, b7; try reflexivity.
    now contradiction Hne.
Qed.

(** [stripExtension] computes the relation [Stripped]. *)
Lemma stripExtension_spec (s t : string) :
  Stripped s t <-> stripExtension s = t.
Proof.
  split.
  - intros [[ext H] | [Hnone ->]].
    + now apply stripExtension_extension in H.
    + destruct (stripExtension_cases s) as [H | [ext H]]; [assumption|].
      now apply Hnone in H.
  - intros <-. destruct (stripExtension_cases s) as [H | [ext H]].
    + right. split; [|assumption]. intros stem ext Hx.
      apply stripExtension_extension in Hx as Hs.
      destruct Hx as [Hshape _]. rewrite H in Hs. subst stem.
      apply (f_equal String.length) in Hshape.
      rewrite !length_append in Hshape. simpl in Hshape. lia.
    + left. now exists ext.
Qed.

(** On POSIX the basename of a path that ends in a segment without slash is
    that segment. *)
Lemma posix_basename_segment (dir seg : string) :
  seg <> EmptyString ->
  (forall c, In c (chars seg) -> c <> "/"%char) ->
  posix_basename (dir ++ "/" ++ seg) = seg.
Proof.
  intros Hne Hseg. unfold posix_basename, lastSegment.
  change (list_ascii_of_string ?x) with (chars x).
  rewrite chars_app. change (chars ("/" ++ seg)) with ("/"%char :: chars seg).
  rewrite rev_app_distr. simpl rev. rewrite <- app_assoc. simpl app.
  assert (Hall : forall d, In d (rev (chars seg)) ->
                           isPosixPathSeparator d = false).
  { intros d Hd. apply in_rev in Hd. apply Hseg in Hd.
    unfold isPosixPathSeparator. now apply Ascii.eqb_neq. }
  destruct (rev (chars seg)) as [|d r] eqn:E.
  - exfalso. apply Hne. apply (f_equal (@rev ascii)) in E.
    rewrite rev_involutive in E. rewrite <- (of_chars seg), E. reflexivity.
  - simpl app. simpl dropWhile. rewrite (Hall d) by (simpl; auto).
    change (d :: r ++ "/"%char :: rev (chars dir))
      with ((d :: r) ++ "/"%char :: rev (chars dir))%list.
    rewrite takeWhile_app_stop.
    + rewrite <- E, rev_involutive. apply of_chars.
    + intros e He. now rewrite Hall.
    + reflexivity.
Qed.

End StringFacts.

(** ** The process scanner *)

Module ScannerFacts.
Import JsString NodePath Host Spec StringFacts.

Section Scanner.
Context {R : Runtime}.

(** One process matches an executable path exactly in the three ways of the
    specification. *)
Lemma matchesProcess_spec (executablePath : string) (proc : RP.t) :
  ProcessMonitor.matchesProcess executablePath
    (basename platform executablePath) proc = true <->
  (RP.name proc = basename platform executablePath \/
   IsSubstring executablePath (RP.command proc) \/
   exists stem, Stripped (RP.name proc) stem /\
                Stripped (basename platform executablePath) stem).
Proof.
  unfold ProcessMonitor.matchesProcess.
  destruct (String.eqb_spec (RP.name proc) (basename platform executablePath))
    as [E|E].
  - split; auto.
  - destruct (includes (RP.command proc) executablePath) eqn:I.
    + apply includes_spec in I. split; auto.
    + rewrite String.eqb_eq. split.
      * intros H. right. right. exists (stripExtension (RP.name proc)).
        split; apply stripExtension_spec; congruence.
      * intros [H | [H | [stem [H1 H2]]]].
        -- contradiction.
        -- apply includes_spec in H. congruence.
        -- apply stripExtension_spec in H1, H2. congruence.
Qed.

(** C2: [isProcessRunning(p)] answers true exactly when the snapshot it scans
    holds a process whose short name is the basename of [p], or whose command
    line contains [p], or whose short name and the basename of [p] are equal
    once both are stripped of a trailing extension; characters are compared
    as they are, without case folding. *)
Theorem isProcessRunning_iff (executablePath : string) (w : World) :
  let processes := fst (fst (ProcessMonitor.getRunningProcesses w)) in
  let answer := fst (fst (ProcessMonitor.isProcessRunning executablePath w)) in
  (answer = true <->
   exists proc, In proc processes /\
     (RP.name proc = basename platform executablePath \/
      IsSubstring executablePath (RP.command proc) \/
      exists stem, Stripped (RP.name proc) stem /\
                   Stripped (basename platform executablePath) stem)) /\
  (answer = false <->
   forall proc, In proc processes ->
     RP.name proc <> basename platform executablePath /\
     ~ IsSubstring executablePath (RP.command proc) /\
     ~ exists stem, Stripped (RP.name proc) stem /\
                    Stripped (basename platform executablePath) stem).
Proof.
  intros processes answer.
  assert (Hanswer : answer = ProcessMonitor.isRunningIn processes executablePath).
  { unfold answer, processes, ProcessMonitor.isProcessRunning.
    destruct (ProcessMonitor.getRunningProcesses w) as [[ps w1] evs].
    reflexivity. }
  assert (Htrue : answer = true <->
    exists proc, In proc processes /\
     (RP.name proc = basename platform executablePath \/
      IsSubstring executablePath (RP.command proc) \/
      exists stem, Stripped (RP.name proc) stem /\
                   Stripped (basename platform executablePath) stem)).
  { rewrite Hanswer. unfold ProcessMonitor.isRunningIn.
    rewrite existsb_exists. split.
    - intros [proc [Hin H]]. exists proc. split; [assumption|].
      now apply matchesProcess_spec.
    - intros [proc [Hin H]]. exists proc. split; [assumption|].
      now apply matchesProcess_spec. }
  split; [exact Htrue|].
  rewrite <- not_true_iff_false, Htrue. split.
  - intros Hno proc Hin. repeat split; intros H; apply Hno; exists proc; tauto.
  - intros Hall [proc [Hin H]]. destruct (Hall proc Hin) as [H1 [H2 H3]].
    tauto.
Qed.

Lemma mapFilter_In {A B : Type} (f : A -> option B) (l : list A) (y : B) :
  In y (ProcessMonitor.mapFilter f l) -> exists x, In x l /\ f x = Some y.
Proof.
  induction l as [|x l IH]; simpl; [tauto|].
  destruct (f x) as [z|] eqn:E.
  - intros [<- | H]; [now exists x; auto|].
    destruct (IH H) as [x' [Hin Hx]]. exists x'. auto.
  - intros H. destruct (IH H) as [x' [Hin Hx]]. exists x'. auto.
Qed.







End Scanner.

(** The three ways of a match, and two snapshots without one: the names
    differ in case, or nothing runs. *)
Lemma isRunningIn_samples :
  let R := Sample.runtime in
  let proc name command := RP.mk None name command in
  ProcessMonitor.isRunningIn
    [proc "code" "/usr/share/code/code --unity-launch"] "/usr/bin/code"
    = true /\
  ProcessMonitor.isRunningIn
    [proc "python3" "python3 /opt/tools/run.py --fast"] "/opt/tools/run.py"
    = true /\
  ProcessMonitor.isRunningIn
    [proc "code.exe" "code.exe"] "/apps/code.bin" = true /\
  ProcessMonitor.isRunningIn
    [proc "Code" "/usr/share/Code/Code"] "/usr/bin/code" = false /\
  ProcessMonitor.isRunningIn [] "/usr/bin/code" = false.
Proof. vm_compute. repeat split. Qed.


End ScannerFacts.

(** ** The enrollment registry *)

Module RegistryFacts.
Import JsString NodePath Host Spec StringFacts.

Section Registry.
Context {R : Runtime}.

Lemma savePrograms_writes (programs : list EP.t) (w : World) :
  In (WriteFile dataFilePath (JSON_stringify programs))
     (snd (Registry.savePrograms programs w)).
Proof.
  unfold Registry.savePrograms.
  destruct (writeFileSync w dataFilePath _); simpl; auto.
Qed.

(** When the file system takes the write, the data file holds the records. *)
Lemma savePrograms_durable (programs : list EP.t) (w : World) :
  fs_fault w OpWrite = None ->
  fs w dataFilePath <> Some Dir ->
  fs (fst (Registry.savePrograms programs w)) dataFilePath =
  Some (File (JSON_stringify programs)).
Proof.
  intros Hfault Hdir. unfold Registry.savePrograms, writeFileSync.
  rewrite Hfault.
  destruct (fs w dataFilePath) as [[|content]|] eqn:E;
    try congruence; simpl; unfold put; now rewrite String.eqb_refl.
Qed.

(** Saving leaves clock, random source, scans and timers as they are. *)
Lemma savePrograms_frame (programs : list EP.t) (w : World) :
  let w' := fst (Registry.savePrograms programs w) in
  fs_fault w' = fs_fault w /\ clock w' = clock w /\
  clock_reads w' = clock_reads w /\ random36 w' = random36 w /\
  random_draws w' = random_draws w /\ exec w' = exec w /\
  execs w' = execs w /\ timers w' = timers w /\ timer_seq w' = timer_seq w.
Proof.
  unfold Registry.savePrograms, writeFileSync.
  destruct (fs_fault w OpWrite); simpl; [tauto|].
  destruct (fs w dataFilePath) as [[|content]|]; simpl; tauto.
Qed.

Lemma isProgramEnrolled_iff (programs : list EP.t) (programPath : string) :
  Registry.isProgramEnrolled programs programPath = true <->
  exists p, In p programs /\ EP.path p = programPath.
Proof.
  unfold Registry.isProgramEnrolled. rewrite existsb_exists.
  split; intros [p [Hin H]]; exists p; split; auto;
    now apply String.eqb_eq.
Qed.

Lemma isProgramEnrolled_false (programs : list EP.t) (programPath : string) :
  Registry.isProgramEnrolled programs programPath = false <->
  ~ In programPath (Registry.getEnrolledPaths programs).
Proof.
  rewrite <- not_true_iff_false, isProgramEnrolled_iff.
  unfold Registry.getEnrolledPaths. rewrite in_map_iff.
  split; intros H [p Hp]; apply H; exists p; tauto.
Qed.

Lemma find_split {A : Type} (f : A -> bool) (l : list A) (r : A) :
  find f l = Some r ->
  exists pre post,
    l = pre ++ r :: post /\ (forall q, In q pre -> f q = false) /\
    f r = true /\ Registry.findIndex f l = Some (length pre).
Proof.
  induction l as [|x l IH]; simpl; [discriminate|].
  destruct (f x) eqn:E.
  - intros H. injection H as <-. exists [], l. simpl. tauto.
  - intros H. destruct (IH H) as [pre [post [-> [Hpre [Hr Hi]]]]].
    exists (x :: pre), post. simpl. rewrite Hi. repeat split; auto.
    intros q [<- | Hq]; auto.
Qed.

Lemma find_none_findIndex {A : Type} (f : A -> bool) (l : list A) :
  find f l = None -> Registry.findIndex f l = None.
Proof.
  induction l as [|x l IH]; simpl; [reflexivity|].
  destruct (f x); [discriminate|]. intros H. now rewrite IH.
Qed.

Lemma splice1_middle {A : Type} (pre post : list A) (r : A) :
  Registry.splice1 (length pre) (pre ++ r :: post) = pre ++ post.
Proof.
  unfold Registry.splice1.
  rewrite firstn_app, Nat.sub_diag, firstn_all. simpl.
  rewrite app_nil_r. f_equal.
  induction pre as [|x pre IH]; simpl; [reflexivity | exact IH].
Qed.

Lemma nth_error_middle {A : Type} (pre post : list A) (r : A) :
  nth_error (pre ++ r :: post) (length pre) = Some r.
Proof.
  rewrite nth_error_app2 by lia. now rewrite Nat.sub_diag.
Qed.


(** C4: when the data file is there, a failure to read or to parse it
    leaves an empty registry and an untouched world; a document that parses
    yields its records whose paths exist, in order, a log entry for each
    record left out, and a write of the records kept to the data file. *)
Theorem loadPrograms_spec (programs0 : list EP.t) (w : World) :
  existsSync w dataFilePath = true ->
  (forall error, readFileSync w dataFilePath = inl error ->
     Registry.loadPrograms programs0 w = ([], w, [Registry.loadFailed error])) /\
  (forall data error,
     readFileSync w dataFilePath = inr data ->
     schema_parse data = inl error ->
     Registry.loadPrograms programs0 w = ([], w, [Registry.loadFailed error])) /\
  (forall data parsed,
     readFileSync w dataFilePath = inr data ->
     schema_parse data = inr parsed ->
     exists programs w' evs,
       Registry.loadPrograms programs0 w = (programs, w', evs) /\
       programs = filter (fun p => existsSync w (EP.path p)) parsed /\
       (forall p, In p programs -> existsSync w (EP.path p) = true) /\
       (forall p, In p parsed -> existsSync w (EP.path p) = false ->
          ~ In p programs /\ In (Registry.removalLog p) evs) /\
       In (WriteFile dataFilePath (JSON_stringify programs)) evs /\
       (fs_fault w OpWrite = None ->
        fs w' dataFilePath = Some (File (JSON_stringify programs)))).
Proof.
  intros Hfile. unfold Registry.loadPrograms. rewrite Hfile. simpl.
  split; [|split].
  - intros error H. now rewrite H.
  - intros data error H Hp. now rewrite H, Hp.
  - intros data parsed H Hp. rewrite H, Hp.
    set (kept := filter (Registry.pathStillExists w) parsed).
    pose proof (savePrograms_writes kept w) as Hw.
    pose proof (savePrograms_durable kept w) as Hd.
    destruct (Registry.savePrograms kept w) as [w2 evs]. simpl in Hw, Hd.
    exists kept, w2, (Registry.removalLogs w parsed ++ evs)%list.
    repeat split.
    + intros p Hin. unfold kept in Hin. apply filter_In in Hin. tauto.
    + intros Hin. unfold kept in Hin. apply filter_In in Hin as [_ Hin].
      unfold Registry.pathStillExists in Hin. congruence.
    + apply in_or_app. left. unfold Registry.removalLogs.
      apply in_map. apply filter_In. split; [assumption|].
      unfold Registry.pathStillExists. now rewrite H1.
    + apply in_or_app. now right.
    + intros Hfault. apply Hd; [assumption|].
      unfold readFileSync in H. destruct (fs_fault w OpRead); [discriminate|].
      destruct (fs w dataFilePath) as [[|content]|]; discriminate.
Qed.

Lemma removeProgram_found (programId : string) (programs : list EP.t)
    (w : World) (r : EP.t) :
  Registry.getProgramById programs programId = Some r ->
  exists pre post,
    programs = pre ++ r :: post /\
    (forall q, In q pre -> EP.id q <> programId) /\
    EP.id r = programId /\
    Registry.removeProgram programId programs w =
    (true, pre ++ post, fst (Registry.savePrograms (pre ++ post) w),
     (snd (Registry.savePrograms (pre ++ post) w) ++
      [Log ("Removed enrolled program: " ++ EP.name r) (Some INFO) false])%list).
Proof.
  unfold Registry.getProgramById, Registry.removeProgram. intros H.
  destruct (find_split _ _ _ H) as [pre [post [-> [Hpre [Hr Hi]]]]].
  rewrite Hi, nth_error_middle, splice1_middle.
  exists pre, post. repeat split.
  - intros q Hq E. apply Hpre in Hq. apply String.eqb_neq in Hq.
    contradiction.
  - now apply String.eqb_eq.
  - now destruct (Registry.savePrograms (pre ++ post) w).
Qed.

Lemma removeProgram_missing (programId : string) (programs : list EP.t)
    (w : World) :
  Registry.getProgramById programs programId = None ->
  Registry.removeProgram programId programs w = (false, programs, w, []).
Proof.
  unfold Registry.getProgramById, Registry.removeProgram. intros H.
  apply find_none_findIndex in H. now rewrite H.
Qed.


(** Enrolling and removing keep the paths of the records distinct. *)
Lemma enrollProgram_distinct_paths (programPath : string)
    (programs : list EP.t) (w : World) :
  NoDup (Registry.getEnrolledPaths programs) ->
  NoDup (Registry.getEnrolledPaths
           (snd (fst (fst (Registry.enrollProgram programPath programs w))))).
Proof.
  intros Hnodup. unfold Registry.enrollProgram.
  destruct (existsSync w programPath); simpl; [|assumption].
  destruct (Registry.isProgramEnrolled programs programPath) eqn:E;
    simpl; [assumption|].
  unfold Registry.generateId, Registry.newDateISO, Date_now, Math_random36.
  simpl. destruct (Registry.savePrograms _ _) as [w3 evs]. simpl.
  unfold Registry.getEnrolledPaths in *. rewrite map_app. simpl.
  apply NoDup_app; [assumption | repeat constructor; simpl; tauto |].
  intros x Hx [<- | []].
  apply isProgramEnrolled_false in E. contradiction.
Qed.

Lemma removeProgram_distinct_paths (programId : string)
    (programs : list EP.t) (w : World) :
  NoDup (Registry.getEnrolledPaths programs) ->
  NoDup (Registry.getEnrolledPaths
           (snd (fst (fst (Registry.removeProgram programId programs w))))).
Proof.
  intros Hnodup.
  destruct (Registry.getProgramById programs programId) as [r|] eqn:E.
  - destruct (removeProgram_found programId programs w r E)
      as [pre [post [Hp [_ [_ Hr]]]]].
    rewrite Hr. simpl. subst programs.
    unfold Registry.getEnrolledPaths in *. rewrite map_app in *.
    simpl in Hnodup. now apply NoDup_remove_1 in Hnodup.
  - now rewrite (removeProgram_missing _ _ _ E).
Qed.

End Registry.



(** On the sample host, after [/usr/bin/vim] was deleted, loading keeps
    [code] alone, logs the removal of [vim] and rewrites the data file. *)
Lemma loadPrograms_spec_sample :
  let R := Sample.runtime in
  exists w' evs,
    Registry.loadPrograms [] Sample.worldWithoutVim =
    ([Sample.code], w', evs) /\
    ~ In Sample.vim [Sample.code] /\
    In (Registry.removalLog Sample.vim) evs /\
    In (WriteFile dataFilePath (JSON_stringify [Sample.code])) evs /\
    fs w' dataFilePath = Some (File "/usr/bin/code").
Proof.
  intros R.
  destruct (loadPrograms_spec (R := R) [] Sample.worldWithoutVim eq_refl)
    as [_ [_ H]].
  destruct (H "/usr/bin/code,/usr/bin/vim" [Sample.code; Sample.vim]
              eq_refl eq_refl)
    as [programs [w' [evs [Hload [Hkept [_ [Hgone [Hwrite Hfile]]]]]]]].
  assert (E : programs = [Sample.code]) by (rewrite Hkept; reflexivity).
  subst programs. exists w', evs.
  split; [exact Hload|].
  destruct (Hgone Sample.vim) as [Habsent Hlog];
    [simpl; auto | reflexivity |].
  split; [exact Habsent|]. split; [exact Hlog|].
  split; [exact Hwrite|]. apply Hfile. reflexivity.
Defined.

(** A document that does not parse leaves the registry empty. *)
Lemma loadPrograms_unparsable_sample :
  let R := Sample.runtime in
  let w := Sample.worldWith (Some "{ programs: ") ["/usr/bin/code"] in
  Registry.loadPrograms [Sample.code] w =
  ([], w,
   [Registry.loadFailed "SyntaxError: Unexpected token in JSON at position 0"]).
Proof. reflexivity. Qed.



End RegistryFacts.

(** ** The polling watcher *)

Module PollingFacts.
Import JsString NodePath Host Spec StringFacts RegistryFacts.

Section Polling.
Context {R : Runtime}.

(** *** What a cycle leaves untouched: the timers *)

Lemma sameTimers_refl (w : World) : sameTimers w w.
Proof. split; reflexivity. Qed.

Lemma sameTimers_trans (w1 w2 w3 : World) :
  sameTimers w1 w2 -> sameTimers w2 w3 -> sameTimers w1 w3.
Proof. unfold sameTimers. intros [H1 H2] [H3 H4]. split; congruence. Qed.

Lemma savePrograms_timers (programs : list EP.t) (w : World) :
  sameTimers w (fst (Registry.savePrograms programs w)).
Proof.
  pose proof (savePrograms_frame programs w) as H. simpl in H.
  unfold sameTimers. tauto.
Qed.

Lemma updateLastSeen_timers (programPath : string) (programs : list EP.t)
    (w : World) :
  sameTimers w (snd (fst (Registry.updateLastSeen programPath programs w))).
Proof.
  unfold Registry.updateLastSeen.
  destruct (Registry.getProgramByPath programs programPath);
    [|apply sameTimers_refl].
  unfold Registry.newDateISO, Date_now. simpl.
  set (w1 := with_clock_reads _ _). set (ps := Registry.stampLastSeen _ _ _).
  pose proof (savePrograms_timers ps w1) as H.
  destruct (Registry.savePrograms ps w1) as [w2 evs]. exact H.
Qed.

Lemma sendHeartbeats_timers (running : list string) (programs : list EP.t)
    (w : World) :
  sameTimers w (snd (fst (ProcessWatcher.sendHeartbeats running programs w))).
Proof.
  revert programs w. induction running as [|p rest IH]; intros programs w;
    simpl; [apply sameTimers_refl|].
  pose proof (updateLastSeen_timers p programs w) as H1.
  destruct (Registry.updateLastSeen p programs w) as [[ps1 w1] evs1].
  pose proof (IH ps1 w1) as H2.
  destruct (ProcessWatcher.sendHeartbeats rest ps1 w1) as [[ps2 w2] evs2].
  simpl in *. eapply sameTimers_trans; eassumption.
Qed.

Lemma getRunningProcesses_timers (w : World) :
  sameTimers w (snd (fst (ProcessMonitor.getRunningProcesses w))).
Proof.
  unfold ProcessMonitor.getRunningProcesses,
    ProcessMonitor.getLinuxProcesses, ProcessMonitor.getMacProcesses,
    ProcessMonitor.getWindowsProcesses, ProcessMonitor.listWith, execAsync.
  destruct platform; try destruct (exec w (execs w) _); simpl;
    split; reflexivity.
Qed.

Lemma getRunningEnrolledPrograms_timers (paths : list string) (w : World) :
  sameTimers w
    (snd (fst (ProcessMonitor.getRunningEnrolledPrograms paths w))).
Proof.
  revert w. induction paths as [|p rest IH]; intros w; simpl;
    [apply sameTimers_refl|].
  unfold ProcessMonitor.isProcessRunning.
  pose proof (getRunningProcesses_timers w) as H1.
  destruct (ProcessMonitor.getRunningProcesses w) as [[procs w1] evs1].
  pose proof (IH w1) as H2.
  destruct (ProcessMonitor.getRunningEnrolledPrograms rest w1)
    as [[running w2] evs2].
  simpl in *. eapply sameTimers_trans; eassumption.
Qed.

Lemma checkEnrolledPrograms_timers (last : list string)
    (programs : list EP.t) (w : World) :
  sameTimers w
    (snd (fst (ProcessWatcher.checkEnrolledPrograms last programs w))).
Proof.
  unfold ProcessWatcher.checkEnrolledPrograms.
  destruct (Registry.getEnrolledPaths programs) as [|p paths];
    [apply sameTimers_refl|].
  pose proof (getRunningEnrolledPrograms_timers (p :: paths) w) as H1.
  destruct (ProcessMonitor.getRunningEnrolledPrograms (p :: paths) w)
    as [[running w1] evs0].
  pose proof (sendHeartbeats_timers running programs w1) as H2.
  destruct (ProcessWatcher.sendHeartbeats running programs w1)
    as [[ps1 w2] evs3].
  simpl in *. eapply sameTimers_trans; eassumption.
Qed.

(** *** Start and stop *)

Lemma stop_held (self : ProcessWatcher.t) (w : World) :
  timers w = held self ->
  let '(self', w', _) := ProcessWatcher.stop self w in
  timers w' = held self' /\ ProcessWatcher.intervalId self' = None.
Proof.
  unfold held, ProcessWatcher.stop. intros H.
  destruct (ProcessWatcher.intervalId self) as [h|] eqn:E; simpl.
  - rewrite H. simpl. now rewrite Nat.eqb_refl.
  - now rewrite E.
Qed.

Lemma start_held (self : ProcessWatcher.t) (programs : list EP.t)
    (w : World) :
  timers w = held self ->
  let '(self', _, w', _) := ProcessWatcher.start self programs w in
  timers w' = held self' /\ exists h, ProcessWatcher.intervalId self' = Some h.
Proof.
  intros H. unfold ProcessWatcher.start.
  assert (Hs : let '(self1, w1, _) :=
                 match ProcessWatcher.intervalId self with
                 | Some _ => ProcessWatcher.stop self w
                 | None => (self, w, [])
                 end in timers w1 = []).
  { pose proof (stop_held self w H) as Hs. unfold held in H.
    destruct (ProcessWatcher.intervalId self) as [h|] eqn:E; [|exact H].
    destruct (ProcessWatcher.stop self w) as [[self1 w1] evs1].
    destruct Hs as [Hs Hid]. unfold held in Hs. now rewrite Hid in Hs. }
  destruct (match ProcessWatcher.intervalId self with
            | Some _ => ProcessWatcher.stop self w
            | None => (self, w, [])
            end) as [[self1 w1] evs1].
  pose proof (checkEnrolledPrograms_timers
                (ProcessWatcher.lastReportedPrograms self1) programs w1) as Hc.
  destruct (ProcessWatcher.checkEnrolledPrograms _ programs w1)
    as [[[last ps1] w2] evs3].
  destruct Hc as [H1 _]. simpl in H1 |- *. unfold held. simpl.
  rewrite H1, Hs. eauto.
Qed.

Lemma tick_held (self : ProcessWatcher.t) (programs : list EP.t)
    (w : World) :
  timers w = held self ->
  let '(self', _, w', _) := ProcessWatcher.tick self programs w in
  timers w' = held self'.
Proof.
  intros H. unfold ProcessWatcher.tick.
  pose proof (checkEnrolledPrograms_timers
                (ProcessWatcher.lastReportedPrograms self) programs w) as Hc.
  destruct (ProcessWatcher.checkEnrolledPrograms _ programs w)
    as [[[last ps1] w2] evs3].
  destruct Hc as [H1 _]. simpl in H1. unfold held in *. simpl. congruence.
Qed.

Lemma setMonitoringInterval_held (ms : N) (self : ProcessWatcher.t)
    (programs : list EP.t) (w : World) :
  timers w = held self ->
  let '(self', _, w', _) :=
    ProcessWatcher.setMonitoringInterval ms self programs w in
  timers w' = held self'.
Proof.
  intros H. unfold ProcessWatcher.setMonitoringInterval.
  set (self1 := ProcessWatcher.mk _ ms _).
  assert (H1 : timers w = held self1) by exact H.
  change (ProcessWatcher.intervalId self1)
    with (ProcessWatcher.intervalId self).
  destruct (ProcessWatcher.intervalId self) as [h|] eqn:E; [|exact H1].
  pose proof (stop_held self1 w H1) as Hs.
  destruct (ProcessWatcher.stop self1 w) as [[self2 w1] evs1].
  destruct Hs as [Hs _].
  pose proof (start_held self2 programs w1 Hs) as Ht.
  destruct (ProcessWatcher.start self2 programs w1) as [[[self3 ps1] w2] evs2].
  tauto.
Qed.

Lemma call_OneTimer (c : Call) (s : System) :
  OneTimer s -> OneTimer (call c s).
Proof.
  unfold OneTimer. intros H. destruct c; unfold call.
  - pose proof (start_held (watcher s) (programs s) (world s) H) as Hc.
    destruct (ProcessWatcher.start _ _ _) as [[[self ps] w] evs]. tauto.
  - pose proof (stop_held (watcher s) (world s) H) as Hc.
    destruct (ProcessWatcher.stop _ _) as [[self w] evs]. tauto.
  - pose proof (setMonitoringInterval_held intervalMs (watcher s)
                  (programs s) (world s) H) as Hc.
    destruct (ProcessWatcher.setMonitoringInterval _ _ _ _)
      as [[[self ps] w] evs]. exact Hc.
  - destruct (ProcessWatcher.intervalId (watcher s)); [|exact H].
    pose proof (tick_held (watcher s) (programs s) (world s) H) as Hc.
    destruct (ProcessWatcher.tick _ _ _) as [[[self ps] w] evs]. exact Hc.
Qed.

Lemma run_OneTimer (calls : list Call) (s : System) :
  OneTimer s -> OneTimer (run calls s).
Proof.
  revert s. induction calls as [|c calls IH]; intros s H; simpl;
    [assumption|].
  apply IH. now apply call_OneTimer.
Qed.

(** *** The events of a cycle *)

Lemma silent_flat (evs : list Event) :
  Forall silent evs -> transitions evs = [] /\ heartbeats evs = [].
Proof.
  unfold transitions, heartbeats.
  induction 1 as [|e evs [H1 H2] _ [IH1 IH2]]; simpl; [auto|].
  now rewrite H1, H2, IH1, IH2.
Qed.

Lemma transitions_app (a b : list Event) :
  transitions (a ++ b) = transitions a ++ transitions b.
Proof. apply flat_map_app. Qed.

Lemma heartbeats_app (a b : list Event) :
  heartbeats (a ++ b) = heartbeats a ++ heartbeats b.
Proof. apply flat_map_app. Qed.

Lemma savePrograms_silent (programs : list EP.t) (w : World) :
  Forall silent (snd (Registry.savePrograms programs w)).
Proof.
  unfold Registry.savePrograms.
  destruct (writeFileSync w dataFilePath _); simpl;
    repeat constructor.
Qed.

Lemma updateLastSeen_silent (programPath : string) (programs : list EP.t)
    (w : World) :
  Forall silent (snd (Registry.updateLastSeen programPath programs w)).
Proof.
  unfold Registry.updateLastSeen.
  destruct (Registry.getProgramByPath programs programPath);
    [|constructor].
  unfold Registry.newDateISO, Date_now. simpl.
  set (w1 := with_clock_reads _ _). set (ps := Registry.stampLastSeen _ _ _).
  pose proof (savePrograms_silent ps w1) as H.
  now destruct (Registry.savePrograms ps w1) as [w2 evs].
Qed.

Lemma getRunningProcesses_silent (w : World) :
  Forall silent (snd (ProcessMonitor.getRunningProcesses w)).
Proof.
  unfold ProcessMonitor.getRunningProcesses,
    ProcessMonitor.getLinuxProcesses, ProcessMonitor.getMacProcesses,
    ProcessMonitor.getWindowsProcesses, ProcessMonitor.listWith, execAsync.
  destruct platform; try destruct (exec w (execs w) _); simpl;
    repeat constructor.
Qed.

Lemma getRunningEnrolledPrograms_silent (paths : list string) (w : World) :
  Forall silent (snd (ProcessMonitor.getRunningEnrolledPrograms paths w)).
Proof.
  revert w. induction paths as [|p rest IH]; intros w; simpl;
    [constructor|].
  unfold ProcessMonitor.isProcessRunning.
  pose proof (getRunningProcesses_silent w) as H1.
  destruct (ProcessMonitor.getRunningProcesses w) as [[procs w1] evs1].
  pose proof (IH w1) as H2.
  destruct (ProcessMonitor.getRunningEnrolledPrograms rest w1)
    as [[running w2] evs2].
  simpl in *. apply Forall_app. auto.
Qed.

(** *** Records keep their identity through a cycle *)

Lemma stampLastSeen_identity (path now : string) (programs : list EP.t) :
  map identity (Registry.stampLastSeen path now programs) =
  map identity programs.
Proof.
  induction programs as [|p rest IH]; simpl; [reflexivity|].
  destruct (String.eqb (EP.path p) path); simpl; [reflexivity|].
  now rewrite IH.
Qed.

Lemma updateLastSeen_identity (programPath : string) (programs : list EP.t)
    (w : World) :
  map identity (fst (fst (Registry.updateLastSeen programPath programs w))) =
  map identity programs.
Proof.
  unfold Registry.updateLastSeen.
  destruct (Registry.getProgramByPath programs programPath);
    [|reflexivity].
  unfold Registry.newDateISO, Date_now. simpl.
  destruct (Registry.savePrograms _ _) as [w2 evs]. simpl.
  apply stampLastSeen_identity.
Qed.

Lemma getProgramByPath_identity (ps ps0 : list EP.t) (path : string) :
  map identity ps = map identity ps0 ->
  match Registry.getProgramByPath ps path,
        Registry.getProgramByPath ps0 path with
  | Some r, Some r0 => identity r = identity r0
  | None, None => True
  | _, _ => False
  end.
Proof.
  revert ps0. induction ps as [|p ps IH]; intros [|p0 ps0] H;
    simpl in *; try discriminate; [exact I|].
  assert (Hp : identity p = identity p0)
    by (unfold identity; injection H; intros; congruence).
  assert (Hrest : map identity ps = map identity ps0)
    by (injection H; intros; assumption).
  assert (Hpath : EP.path p = EP.path p0)
    by (unfold identity in Hp; congruence).
  rewrite Hpath. destruct (String.eqb (EP.path p0) path); [exact Hp|].
  now apply IH.
Qed.

Lemma programHeartbeat_identity (r r0 : EP.t) (path : string) :
  identity r = identity r0 ->
  ProcessWatcher.programHeartbeat r path =
  ProcessWatcher.programHeartbeat r0 path.
Proof.
  unfold identity, ProcessWatcher.programHeartbeat. intros H.
  injection H as H1 H2 H3 H4. now rewrite H1, H2.
Qed.

Lemma sendHeartbeats_events (running : list string) (ps ps0 : list EP.t)
    (w : World) :
  map identity ps = map identity ps0 ->
  let '(ps', _, evs) := ProcessWatcher.sendHeartbeats running ps w in
  map identity ps' = map identity ps0 /\
  heartbeats evs = flat_map (heartbeatFor ps0) running /\
  transitions evs = [].
Proof.
  revert ps w. induction running as [|p rest IH]; intros ps w Hid; simpl;
    [auto|].
  pose proof (updateLastSeen_identity p ps w) as H1.
  pose proof (updateLastSeen_silent p ps w) as H2.
  destruct (Registry.updateLastSeen p ps w) as [[ps1 w1] evs2].
  simpl in H1, H2. rewrite Hid in H1.
  pose proof (IH ps1 w1 H1) as H3.
  destruct (ProcessWatcher.sendHeartbeats rest ps1 w1) as [[ps2 w2] evs3].
  destruct H3 as [H3 [H4 H5]]. apply silent_flat in H2 as [H6 H7].
  split; [exact H3|].
  rewrite !heartbeats_app, !transitions_app, H4, H5, H6, H7.
  unfold ProcessWatcher.sendProgramHeartbeat, heartbeatFor.
  pose proof (getProgramByPath_identity ps ps0 p Hid) as Hg.
  destruct (Registry.getProgramByPath ps p) as [r|],
           (Registry.getProgramByPath ps0 p) as [r0|];
    try contradiction; simpl; [|auto].
  now rewrite (programHeartbeat_identity r r0 p Hg).
Qed.

Lemma transitionOf_detected (name : string) (external : bool) :
  transitionOf
    (Log ("Detected enrolled program running: " ++ name) (Some INFO) external)
  = [Entered name].
Proof. reflexivity. Qed.

Lemma transitionOf_stopped (name : string) (external : bool) :
  transitionOf (Log ("Enrolled program stopped: " ++ name) (Some INFO) external)
  = [Exited name].
Proof. reflexivity. Qed.

Lemma logDetected_events (ps ps0 : list EP.t) (last running : list string) :
  map identity ps = map identity ps0 ->
  transitions (ProcessWatcher.logDetected ps last running) =
  flat_map (enteredFor ps0 last) running /\
  heartbeats (ProcessWatcher.logDetected ps last running) = [].
Proof.
  intros Hid. unfold ProcessWatcher.logDetected, transitions, heartbeats.
  induction running as [|p rest [IH1 IH2]]; [split; reflexivity|].
  cbn [flat_map]. rewrite !flat_map_app, IH1, IH2. unfold enteredFor.
  pose proof (getProgramByPath_identity ps ps0 p Hid) as Hg.
  destruct (ProcessWatcher.has last p); cbn [negb flat_map];
    [split; reflexivity|].
  destruct (Registry.getProgramByPath ps p) as [r|],
           (Registry.getProgramByPath ps0 p) as [r0|];
    try contradiction; [|split; reflexivity].
  assert (Hname : EP.name r = EP.name r0)
    by (unfold identity in Hg; congruence).
  cbn [flat_map]. rewrite transitionOf_detected, Hname. split; reflexivity.
Qed.

Lemma logStopped_events (ps ps0 : list EP.t) (last current : list string) :
  map identity ps = map identity ps0 ->
  transitions (ProcessWatcher.logStopped ps last current) =
  flat_map (exitedFor ps0 current) last /\
  heartbeats (ProcessWatcher.logStopped ps last current) = [].
Proof.
  intros Hid. unfold ProcessWatcher.logStopped, transitions, heartbeats.
  induction last as [|p rest [IH1 IH2]]; [split; reflexivity|].
  cbn [flat_map]. rewrite !flat_map_app, IH1, IH2. unfold exitedFor.
  pose proof (getProgramByPath_identity ps ps0 p Hid) as Hg.
  destruct (ProcessWatcher.has current p); cbn [negb flat_map];
    [split; reflexivity|].
  destruct (Registry.getProgramByPath ps p) as [r|],
           (Registry.getProgramByPath ps0 p) as [r0|];
    try contradiction; [|split; reflexivity].
  assert (Hname : EP.name r = EP.name r0)
    by (unfold identity in Hg; congruence).
  cbn [flat_map]. rewrite transitionOf_stopped, Hname. split; reflexivity.
Qed.

Lemma identity_paths (ps ps0 : list EP.t) :
  map identity ps = map identity ps0 ->
  Registry.getEnrolledPaths ps = Registry.getEnrolledPaths ps0.
Proof.
  unfold Registry.getEnrolledPaths. intros H.
  apply (f_equal (map (fun i => snd (fst i)))) in H.
  rewrite !map_map in H. exact H.
Qed.

(** A cycle over records that are [ps0] up to [lastSeen], when a record is
    enrolled: it reports the paths that entered and left since [last], sends
    one heartbeat for each running path, and keeps the running paths. *)
Lemma checkEnrolledPrograms_events (last : list string) (ps ps0 : list EP.t)
    (w : World) :
  map identity ps = map identity ps0 ->
  ps0 <> [] ->
  let running := scanReports w (Registry.getEnrolledPaths ps0) in
  let '(last', ps', _, evs) :=
    ProcessWatcher.checkEnrolledPrograms last ps w in
  last' = ProcessWatcher.newSet running /\
  map identity ps' = map identity ps0 /\
  transitions evs =
    flat_map (enteredFor ps0 last) running ++
    flat_map (exitedFor ps0 (ProcessWatcher.newSet running)) last /\
  heartbeats evs = flat_map (heartbeatFor ps0) running.
Proof.
  intros Hid Hne. unfold ProcessWatcher.checkEnrolledPrograms, scanReports.
  rewrite (identity_paths ps ps0 Hid).
  destruct (Registry.getEnrolledPaths ps0) as [|p paths] eqn:Ep;
    [destruct ps0; [contradiction | discriminate]|].
  pose proof (getRunningEnrolledPrograms_silent (p :: paths) w) as Hs.
  destruct (ProcessMonitor.getRunningEnrolledPrograms (p :: paths) w)
    as [[running w1] evs0].
  simpl in Hs |- *. apply silent_flat in Hs as [Hs1 Hs2].
  pose proof (sendHeartbeats_events running ps ps0 w1 Hid) as Hh.
  destruct (ProcessWatcher.sendHeartbeats running ps w1) as [[ps1 w2] evs3].
  destruct Hh as [Hh1 [Hh2 Hh3]].
  destruct (logDetected_events ps ps0 last running Hid) as [Hd1 Hd2].
  destruct (logStopped_events ps ps0 last (ProcessWatcher.newSet running) Hid)
    as [He1 He2].
  split; [reflexivity|]. split; [exact Hh1|].
  rewrite !transitions_app, !heartbeats_app.
  rewrite Hs1, Hs2, Hd1, Hd2, He1, He2, Hh2, Hh3.
  simpl. now rewrite app_nil_r.
Qed.

Lemma cycle_events (s : System) (ps0 : list EP.t) :
  map identity (programs s) = map identity ps0 ->
  ps0 <> [] ->
  let last := ProcessWatcher.lastReportedPrograms (watcher s) in
  let running := scanReports (world s) (Registry.getEnrolledPaths ps0) in
  ProcessWatcher.lastReportedPrograms (watcher (fst (cycle s))) =
    ProcessWatcher.newSet running /\
  map identity (programs (fst (cycle s))) = map identity ps0 /\
  transitions (snd (cycle s)) =
    flat_map (enteredFor ps0 last) running ++
    flat_map (exitedFor ps0 (ProcessWatcher.newSet running)) last /\
  heartbeats (snd (cycle s)) = flat_map (heartbeatFor ps0) running.
Proof.
  intros Hid Hne. unfold cycle, ProcessWatcher.tick.
  pose proof (checkEnrolledPrograms_events
                (ProcessWatcher.lastReportedPrograms (watcher s))
                (programs s) ps0 (world s) Hid Hne) as H.
  destruct (ProcessWatcher.checkEnrolledPrograms _ (programs s) (world s))
    as [[[last' ps'] w'] evs].
  exact H.
Qed.

(** C1: with the records of two distinct paths A and B enrolled and nothing
    reported before, three cycles in which the scanner reports A, then A and
    B, then B, log that A entered in the first, that B entered in the
    second and that A left in the third, send one heartbeat for A, then one
    for each of A and B, then one for B, and leave [lastReportedPrograms]
    holding the paths that ran in the cycle. *)
Theorem three_cycles (pa pb : EP.t) (w0 : World) :
  let A := EP.path pa in
  let B := EP.path pb in
  let s0 := mkSystem w0 [pa; pb] ProcessWatcher.create in
  let s1 := fst (cycle s0) in
  let s2 := fst (cycle s1) in
  let s3 := fst (cycle s2) in
  A <> B ->
  scanReports (world s0) [A; B] = [A] ->
  scanReports (world s1) [A; B] = [A; B] ->
  scanReports (world s2) [A; B] = [B] ->
  (transitions (snd (cycle s0)) = [Entered (EP.name pa)] /\
   heartbeats (snd (cycle s0)) = [ProcessWatcher.programHeartbeat pa A] /\
   ProcessWatcher.lastReportedPrograms (watcher s1) = [A]) /\
  (transitions (snd (cycle s1)) = [Entered (EP.name pb)] /\
   heartbeats (snd (cycle s1)) =
     [ProcessWatcher.programHeartbeat pa A;
      ProcessWatcher.programHeartbeat pb B] /\
   ProcessWatcher.lastReportedPrograms (watcher s2) = [A; B]) /\
  (transitions (snd (cycle s2)) = [Exited (EP.name pa)] /\
   heartbeats (snd (cycle s2)) = [ProcessWatcher.programHeartbeat pb B] /\
   ProcessWatcher.lastReportedPrograms (watcher s3) = [B]).
Proof.
  intros A B s0 s1 s2 s3 Hab H1 H2 H3.
  assert (Hne : [pa; pb] <> []) by discriminate.
  assert (Eab : String.eqb A B = false) by now apply String.eqb_neq.
  assert (Eba : String.eqb B A = false)
    by (apply String.eqb_neq; congruence).
  assert (Ga : Registry.getProgramByPath [pa; pb] A = Some pa).
  { unfold Registry.getProgramByPath. simpl. fold A.
    now rewrite String.eqb_refl. }
  assert (Gb : Registry.getProgramByPath [pa; pb] B = Some pb).
  { unfold Registry.getProgramByPath. simpl. fold A B.
    now rewrite Eab, String.eqb_refl. }
  destruct (cycle_events s0 [pa; pb] eq_refl Hne) as [L1 [I1 [T1 B1]]].
  fold s1 in L1, I1.
  destruct (cycle_events s1 [pa; pb] I1 Hne) as [L2 [I2 [T2 B2]]].
  fold s2 in L2, I2.
  destruct (cycle_events s2 [pa; pb] I2 Hne) as [L3 [I3 [T3 B3]]].
  fold s3 in L3, I3.
  change (Registry.getEnrolledPaths [pa; pb]) with [A; B] in *.
  rewrite H1 in L1, T1, B1. rewrite H2 in L2, T2, B2.
  rewrite H3 in L3, T3, B3.
  rewrite L1 in T2. rewrite L2 in T3.
  change (ProcessWatcher.lastReportedPrograms (watcher s0))
    with (@nil string) in T1.
  unfold enteredFor, exitedFor, heartbeatFor, ProcessWatcher.has in *.
  simpl in L1, L2, L3, T1, T2, T3, B1, B2, B3.
  rewrite ?String.eqb_refl, ?Eab, ?Eba, ?Ga, ?Gb in *.
  simpl in L1, L2, L3, T1, T2, T3, B1, B2, B3.
  rewrite ?String.eqb_refl, ?Eab, ?Eba, ?Ga, ?Gb in *.
  change (EP.path pa) with A in T2, B2, B3.
  rewrite Eab in T2, B2, B3. simpl in T2, B2, B3.
  repeat split; assumption.
Qed.



(** C7: with no record enrolled a cycle does nothing: no command is run, no
    transition is logged, no heartbeat is sent, and the watcher, the records
    and the world are as before. *)
Theorem empty_registry_cycle_noop (self : ProcessWatcher.t)
    (programs : list EP.t) (w : World) :
  Registry.getEnrolledPaths programs = [] ->
  let '(self', programs', w', evs) :=
    ProcessWatcher.tick self programs w in
  evs = [] /\ scans evs = [] /\ transitions evs = [] /\ heartbeats evs = [] /\
  execs w' = execs w /\ w' = w /\ programs' = programs /\
  ProcessWatcher.lastReportedPrograms self' =
  ProcessWatcher.lastReportedPrograms self /\
  self' = self.
Proof.
  intros H. unfold ProcessWatcher.tick, ProcessWatcher.checkEnrolledPrograms.
  rewrite H. destruct self. simpl. repeat split.
Qed.

(** C8: [stop] on a watcher that is not running, a new one included, does
    nothing; after [stop] the watcher is not running and a second [stop]
    does nothing; [start] on a running watcher first clears its timer, then
    arms a new one; and whatever the calls, the armed timers are the one the
    watcher holds, so there is never more than one. *)
Theorem start_stop_idempotent :
  (forall w, ProcessWatcher.stop ProcessWatcher.create w =
             (ProcessWatcher.create, w, []) /\
             ProcessWatcher.isRunning ProcessWatcher.create = false) /\
  (forall self w, ProcessWatcher.isRunning self = false ->
     ProcessWatcher.stop self w = (self, w, [])) /\
  (forall self w,
     let '(self1, w1, _) := ProcessWatcher.stop self w in
     ProcessWatcher.isRunning self1 = false /\
     ProcessWatcher.stop self1 w1 = (self1, w1, [])) /\
  (forall self programs w handle,
     ProcessWatcher.intervalId self = Some handle ->
     let '(self', _, w', evs) := ProcessWatcher.start self programs w in
     (exists between handle',
        evs = ClearInterval handle :: between ++
              [SetInterval handle' (ProcessWatcher.monitoringInterval self)] /\
        ProcessWatcher.intervalId self' = Some handle') /\
     ProcessWatcher.isRunning self' = true /\
     (timers w = [handle] -> timers w' = held self')) /\
  (forall calls programs w,
     timers w = [] ->
     let s := run calls (mkSystem w programs ProcessWatcher.create) in
     OneTimer s /\ length (timers (world s)) <= 1 /\
     (ProcessWatcher.isRunning (watcher s) = false -> timers (world s) = [])).
Proof.
  split; [split; reflexivity|]. split; [|split; [|split]].
  - intros self w H. unfold ProcessWatcher.stop, ProcessWatcher.isRunning in *.
    now destruct (ProcessWatcher.intervalId self).
  - intros self w. unfold ProcessWatcher.stop.
    destruct (ProcessWatcher.intervalId self) eqn:E; simpl.
    + split; reflexivity.
    + unfold ProcessWatcher.isRunning. now rewrite E.
  - intros self programs w handle H.
    pose proof (start_held self programs w) as Hs.
    unfold ProcessWatcher.start in *. rewrite H in *.
    unfold ProcessWatcher.stop in *. rewrite H in *.
    destruct (ProcessWatcher.checkEnrolledPrograms _ programs _)
      as [[[last ps1] w2] evs3].
    simpl in *. split; [|split; [reflexivity|]].
    + exists (Log "Stopped process monitoring" (Some INFO) false
              :: Log ("Starting process monitoring with "
                      ++ toString10 (ProcessWatcher.monitoringInterval self)
                      ++ "ms interval") (Some INFO) false
              :: evs3), (timer_seq w2).
      split; reflexivity.
    + intros Ht. apply Hs. unfold held. now rewrite H.
  - intros calls programs w Ht s.
    assert (Hs : OneTimer s).
    { apply run_OneTimer. unfold OneTimer. simpl. exact Ht. }
    split; [exact Hs|]. unfold OneTimer, held in Hs.
    unfold ProcessWatcher.isRunning. rewrite Hs.
    destruct (ProcessWatcher.intervalId (watcher s)); simpl; split;
      auto; discriminate.
Qed.

End Polling.

(** On the sample host [code] runs in the first cycle, [code] and [vim] in
    the second, [vim] in the third. *)
Lemma three_cycles_sample :
  let R := Sample.runtime in
  let s0 :=
    mkSystem Sample.world [Sample.code; Sample.vim] ProcessWatcher.create in
  let s1 := fst (cycle s0) in
  let s2 := fst (cycle s1) in
  let s3 := fst (cycle s2) in
  (transitions (snd (cycle s0)) = [Entered "code"] /\
   heartbeats (snd (cycle s0)) =
     [ProcessWatcher.programHeartbeat Sample.code "/usr/bin/code"] /\
   ProcessWatcher.lastReportedPrograms (watcher s1) = ["/usr/bin/code"]) /\
  (transitions (snd (cycle s1)) = [Entered "vim"] /\
   heartbeats (snd (cycle s1)) =
     [ProcessWatcher.programHeartbeat Sample.code "/usr/bin/code";
      ProcessWatcher.programHeartbeat Sample.vim "/usr/bin/vim"] /\
   ProcessWatcher.lastReportedPrograms (watcher s2) =
     ["/usr/bin/code"; "/usr/bin/vim"]) /\
  (transitions (snd (cycle s2)) = [Exited "code"] /\
   heartbeats (snd (cycle s2)) =
     [ProcessWatcher.programHeartbeat Sample.vim "/usr/bin/vim"] /\
   ProcessWatcher.lastReportedPrograms (watcher s3) = ["/usr/bin/vim"]).
Proof.
  intros R s0 s1 s2 s3.
  apply (three_cycles (R := R) Sample.code Sample.vim Sample.world).
  - discriminate.
  - vm_compute. reflexivity.
  - vm_compute. reflexivity.
  - vm_compute. reflexivity.
Defined.


(** A basename in capitals is looked up in lower case; a name the table
    does not know is [Other]. *)
Lemma determineLanguage_samples :
  let R := Sample.runtime in
  ProcessWatcher.determineLanguageFromPath "/opt/JetBrains/PyCharm.sh" =
    "Python" /\
  ProcessWatcher.determineLanguageFromPath "/usr/bin/NVIM" = "Vim Script" /\
  ProcessWatcher.determineLanguageFromPath "/usr/bin/firefox" = "Other".
Proof. vm_compute. repeat split. Qed.

(** On the sample host, a cycle over an empty registry. *)
Lemma empty_registry_cycle_noop_sample :
  let R := Sample.runtime in
  let self := ProcessWatcher.mk (Some 0) 60000 ["/usr/bin/code"] in
  let '(self', programs', w', evs) :=
    ProcessWatcher.tick self [] Sample.world in
  evs = [] /\ scans evs = [] /\ transitions evs = [] /\ heartbeats evs = [] /\
  execs w' = execs Sample.world /\ w' = Sample.world /\ programs' = [] /\
  ProcessWatcher.lastReportedPrograms self' = ["/usr/bin/code"] /\
  self' = self.
Proof.
  intros R self.
  apply (empty_registry_cycle_noop (R := R) self [] Sample.world).
  reflexivity.
Defined.

(** On the sample host: start twice, let the timer fire, change the
    interval, stop twice. *)
Lemma start_stop_idempotent_sample :
  let R := Sample.runtime in
  let s0 :=
    mkSystem Sample.world [Sample.code; Sample.vim] ProcessWatcher.create in
  let running := run [CallStart; CallStart; TimerFires;
                      CallSetMonitoringInterval 1000] s0 in
  let stopped := run [CallStop; CallStop] running in
  (OneTimer running /\ length (timers (world running)) <= 1) /\
  timers (world running) = [2] /\
  timers (world stopped) = [] /\
  ProcessWatcher.isRunning (watcher stopped) = false.
Proof.
  intros R s0 running stopped.
  destruct (start_stop_idempotent (R := R)) as [_ [_ [_ [_ H]]]].
  destruct (H [CallStart; CallStart; TimerFires; CallSetMonitoringInterval 1000]
              [Sample.code; Sample.vim] Sample.world eq_refl)
    as [H1 [H2 _]].
  split; [split; [exact H1 | exact H2]|].
  vm_compute. repeat split.
Defined.

End PollingFacts.

(** ** The window watcher *)

Module WindowFacts.
Import Host Spec.

Section Window.
Context {R : Runtime}.

(** C9: a focus event for the process of the window already tracked changes
    nothing: the watcher is as before, the keyboard listener is neither
    removed nor added, nothing is logged, and the answer does not depend on
    the records of the registry. *)
Theorem same_process_focus_ignored (windowInfo current : WindowInfo)
    (self : Watcher.t) (programs : list EP.t) :
  Watcher.activeWindow self = Some current ->
  info_processId (win_info current) = info_processId (win_info windowInfo) ->
  Watcher.onActiveWindow windowInfo self programs = (self, []) /\
  Watcher.activeWindow
    (fst (Watcher.onActiveWindow windowInfo self programs)) = Some current /\
  Watcher.isWatchingForKeyboardEvents
    (fst (Watcher.onActiveWindow windowInfo self programs)) =
  Watcher.isWatchingForKeyboardEvents self /\
  forall programs',
    Watcher.onActiveWindow windowInfo self programs' =
    Watcher.onActiveWindow windowInfo self programs.
Proof.
  intros Hactive Hpid.
  assert (H : forall ps, Watcher.onActiveWindow windowInfo self ps = (self, [])).
  { intros ps. unfold Watcher.onActiveWindow, Watcher.sameProcess.
    rewrite Hactive, Hpid, N.eqb_refl.
    now destruct (N.eqb (info_processId (win_info windowInfo)) 0). }
  rewrite H. simpl. repeat split; try assumption.
Qed.

End Window.

(** On the sample host: [code] is focused and watched; a second event for
    its process is ignored, though [code] is no longer enrolled. *)
Lemma same_process_focus_ignored_sample :
  let first := Sample.window "code" "/usr/bin/code" 412 in
  let again := Sample.window "code - notes.txt" "/usr/bin/code" 412 in
  let self := fst (Watcher.onActiveWindow first Watcher.create [Sample.code]) in
  Watcher.isWatchingForKeyboardEvents self = true /\
  Watcher.onActiveWindow again self [] = (self, []).
Proof.
  intros first again self. split; [reflexivity|].
  apply (same_process_focus_ignored again first self []); reflexivity.
Defined.

(** A focus event for another process is not ignored. *)
Lemma other_process_focus_sample :
  let first := Sample.window "code" "/usr/bin/code" 412 in
  let other := Sample.window "vim" "/usr/bin/vim" 977 in
  let self := fst (Watcher.onActiveWindow first Watcher.create [Sample.code]) in
  let '(self', evs) := Watcher.onActiveWindow other self [Sample.code] in
  Watcher.activeWindow self' = Some other /\
  Watcher.isWatchingForKeyboardEvents self' = false /\
  evs = [RemoveKeyListener;
         Log "App changed from code to vim" None false;
         Log "Not monitoring vim: /usr/bin/vim" None false].
Proof. vm_compute. repeat split. Qed.

End WindowFacts.

(** ** Further properties of the enrollment registry *)

Module RegistryLaws.
Import JsString NodePath Host Spec Laws StringFacts RegistryFacts.

Section Registry.
Context {R : Runtime}.

Lemma existsSync_put (w : World) (p q : string) (n : FsNode) :
  existsSync w q = true ->
  existsSync (with_fs w (put (fs w) p n)) q = true.
Proof.
  unfold existsSync, put. simpl. intros H.
  now destruct (String.eqb q p).
Qed.

Lemma savePrograms_keeps (programs : list EP.t) (w : World) (q : string) :
  existsSync w q = true ->
  existsSync (fst (Registry.savePrograms programs w)) q = true.
Proof.
  intros H. unfold Registry.savePrograms, writeFileSync.
  destruct (fs_fault w OpWrite); simpl; [assumption|].
  destruct (fs w dataFilePath) as [[|content]|]; simpl;
    try assumption; now apply existsSync_put.
Qed.

Lemma savePrograms_synced (programs : list EP.t) (w : World) :
  fs_fault w OpWrite = None ->
  fs w dataFilePath <> Some Dir ->
  Synced (fst (Registry.savePrograms programs w)) programs.
Proof. apply savePrograms_durable. Qed.

Lemma enrollProgram_success (programPath : string) (programs : list EP.t)
    (w : World) :
  existsSync w programPath = true ->
  Registry.isProgramEnrolled programs programPath = false ->
  exists w2,
    sameDisk w w2 /\
    Registry.enrollProgram programPath programs w =
    (Some (enrolledRecord programPath w),
     programs ++ [enrolledRecord programPath w],
     fst (Registry.savePrograms
            (programs ++ [enrolledRecord programPath w]) w2),
     snd (Registry.savePrograms
            (programs ++ [enrolledRecord programPath w]) w2) ++
     [Log ("Enrolled program: " ++ basename platform programPath ++ " at "
           ++ programPath) (Some INFO) false]).
Proof.
  intros He Hn. unfold Registry.enrollProgram. rewrite He, Hn. simpl.
  unfold Registry.generateId, Registry.newDateISO, Date_now, Math_random36,
    enrolledRecord.
  simpl. set (w2 := with_clock_reads _ _).
  exists w2. split; [split; reflexivity|].
  now destruct (Registry.savePrograms _ w2).
Qed.

Lemma enrollProgram_failure (programPath : string) (programs : list EP.t)
    (w : World) :
  existsSync w programPath = false \/
  Registry.isProgramEnrolled programs programPath = true ->
  exists error,
    Registry.enrollProgram programPath programs w =
    (None, programs, w, [Registry.enrollFailed error]).
Proof.
  unfold Registry.enrollProgram.
  destruct (existsSync w programPath); simpl.
  - intros [H | H]; [discriminate|]. rewrite H. eauto.
  - intros _. eauto.
Qed.

Lemma updateLastSeen_found (programPath : string) (programs : list EP.t)
    (w : World) (r : EP.t) :
  Registry.getProgramByPath programs programPath = Some r ->
  let now := toISOString (clock w (clock_reads w)) in
  let programs' := Registry.stampLastSeen programPath now programs in
  exists w1,
    sameDisk w w1 /\
    Registry.updateLastSeen programPath programs w =
    (programs', fst (Registry.savePrograms programs' w1),
     snd (Registry.savePrograms programs' w1)).
Proof.
  intros H. unfold Registry.updateLastSeen. rewrite H.
  unfold Registry.newDateISO, Date_now. simpl.
  set (w1 := with_clock_reads _ _). exists w1.
  split; [split; reflexivity|].
  now destruct (Registry.savePrograms _ w1).
Qed.

Lemma stampLastSeen_other (path now : string) (programs : list EP.t)
    (q : EP.t) :
  EP.path q <> path ->
  (In q (Registry.stampLastSeen path now programs) <-> In q programs).
Proof.
  intros Hq. induction programs as [|p rest IH]; simpl; [tauto|].
  destruct (String.eqb_spec (EP.path p) path) as [E|E]; simpl.
  - split; intros [H | H]; auto; exfalso; subst q; simpl in Hq; congruence.
  - rewrite IH. tauto.
Qed.


Lemma stampLastSeen_length (path now : string) (programs : list EP.t) :
  length (Registry.stampLastSeen path now programs) = length programs.
Proof.
  induction programs as [|p rest IH]; simpl; [reflexivity|].
  destruct (String.eqb (EP.path p) path); simpl; congruence.
Qed.

Lemma stampLastSeen_paths (path now : string) (programs : list EP.t) :
  Registry.getEnrolledPaths (Registry.stampLastSeen path now programs) =
  Registry.getEnrolledPaths programs.
Proof.
  unfold Registry.getEnrolledPaths.
  induction programs as [|p rest IH]; simpl; [reflexivity|].
  destruct (String.eqb (EP.path p) path); simpl; congruence.
Qed.

Lemma stampLastSeen_ids (path now : string) (programs : list EP.t) :
  map EP.id (Registry.stampLastSeen path now programs) = map EP.id programs.
Proof.
  induction programs as [|p rest IH]; simpl; [reflexivity|].
  destruct (String.eqb (EP.path p) path); simpl; congruence.
Qed.

(** X1: when the data file is missing, loading creates the data directory
    if it has to and writes the records in memory, none in a new registry,
    to the data file; when the directory cannot be created the registry is
    empty and nothing is written. *)
Theorem loadPrograms_first_run (w : World) :
  existsSync w dataFilePath = false ->
  (forall error,
     existsSync w dataDir = false -> fs_fault w OpMkdir = Some error ->
     Registry.construct w = ([], w, [Mkdir dataDir; Registry.loadFailed error]))
  /\
  (dataDir <> dataFilePath ->
   fs_fault w OpMkdir = None -> fs_fault w OpWrite = None ->
   let '(programs, w', evs) := Registry.construct w in
   programs = [] /\
   existsSync w' dataDir = true /\
   Synced w' [] /\
   In (WriteFile dataFilePath (JSON_stringify [])) evs /\
   forall p, existsSync w p = true -> existsSync w' p = true).
Proof.
  intros Hfile. unfold Registry.construct, Registry.loadPrograms.
  rewrite Hfile. simpl. split.
  - intros error Hdir Hfault. rewrite Hdir. simpl.
    unfold mkdirSync. now rewrite Hfault.
  - intros Hne Hmk Hwr.
    assert (Hnodir : fs w dataFilePath = None).
    { unfold existsSync in Hfile. now destruct (fs w dataFilePath). }
    destruct (existsSync w dataDir) eqn:Hdir; simpl.
    + pose proof (savePrograms_synced [] w Hwr) as Hs.
      pose proof (savePrograms_writes [] w) as Hw.
      pose proof (savePrograms_keeps [] w) as Hk.
      destruct (Registry.savePrograms [] w) as [w2 evs]. simpl in *.
      repeat split; auto. apply Hs. congruence.
    + unfold mkdirSync. rewrite Hmk.
      assert (Hd : fs w dataDir = None).
      { unfold existsSync in Hdir. now destruct (fs w dataDir). }
      rewrite Hd.
      set (w1 := with_fs w (put (fs w) dataDir Dir)).
      assert (Hw1 : fs w1 dataFilePath = None).
      { unfold w1, put. simpl.
        destruct (String.eqb_spec dataFilePath dataDir); congruence. }
      pose proof (savePrograms_synced [] w1 Hwr) as Hs.
      pose proof (savePrograms_writes [] w1) as Hw.
      pose proof (savePrograms_keeps [] w1) as Hk.
      destruct (Registry.savePrograms [] w1) as [w2 evs]. simpl in *.
      repeat split.
      * apply Hk. unfold w1, existsSync, put. simpl.
        now rewrite String.eqb_refl.
      * apply Hs. congruence.
      * now right.
      * intros p Hp. apply Hk. unfold w1. now apply existsSync_put.
Qed.

(** X2: [updateLastSeen] for a path that no record has does nothing: the
    records, the world and the clock are untouched and nothing is written.
    Otherwise it stamps the first record of the path with the current time
    and writes the records: the count, the ids, the paths and every record
    of another path are as before. *)
Theorem updateLastSeen_spec (programPath : string) (programs : list EP.t)
    (w : World) :
  (Registry.getProgramByPath programs programPath = None ->
   Registry.updateLastSeen programPath programs w = (programs, w, [])) /\
  (forall r, Registry.getProgramByPath programs programPath = Some r ->
   let '(programs', w', evs) :=
     Registry.updateLastSeen programPath programs w in
   let now := toISOString (clock w (clock_reads w)) in
   Registry.getProgramByPath programs' programPath =
     Some (EP.mk (EP.id r) (EP.name r) (EP.path r) (EP.enrolledAt r)
                 (Some now)) /\
   length programs' = length programs /\
   map EP.id programs' = map EP.id programs /\
   Registry.getEnrolledPaths programs' = Registry.getEnrolledPaths programs /\
   (forall q, EP.path q <> programPath -> (In q programs' <-> In q programs)) /\
   clock_reads w' = S (clock_reads w) /\
   In (WriteFile dataFilePath (JSON_stringify programs')) evs).
Proof.
  split.
  - intros H. unfold Registry.updateLastSeen. now rewrite H.
  - intros r H.
    destruct (updateLastSeen_found programPath programs w r H)
      as [w1 [_ Hu]].
    unfold Registry.updateLastSeen in *. rewrite H in *.
    unfold Registry.newDateISO, Date_now in *. simpl in *.
    set (now := toISOString (clock w (clock_reads w))) in *.
    set (programs' := Registry.stampLastSeen programPath now programs) in *.
    set (w0 := with_clock_reads w (S (clock_reads w))) in *.
    pose proof (savePrograms_writes programs' w0) as Hw.
    pose proof (savePrograms_frame programs' w0) as Hf.
    destruct (Registry.savePrograms programs' w0) as [w2 evs].
    simpl in Hw, Hf.
    split; [|split; [|split; [|split; [|split; [|split]]]]].
    + unfold programs'. clear -H. unfold Registry.getProgramByPath in *.
      induction programs as [|p rest IH]; simpl in *; [discriminate|].
      destruct (String.eqb (EP.path p) programPath) eqn:E; simpl.
      * rewrite E. now injection H as <-.
      * rewrite E. now apply IH.
    + apply stampLastSeen_length.
    + apply stampLastSeen_ids.
    + apply stampLastSeen_paths.
    + intros q Hq. now apply stampLastSeen_other.
    + destruct Hf as [_ [_ [Hc _]]]. rewrite Hc. reflexivity.
    + exact Hw.
Qed.

(** X3: after a successful [enrollProgram] the record returned is the one
    [getProgramByPath] finds for the path; looking up any other path gives
    what it gave before; and [getProgramById] finds the record by its id
    when no older record has that id. *)
Theorem lookup_after_enroll (programPath : string) (programs : list EP.t)
    (w : World) (newProgram : EP.t) :
  fst (fst (fst (Registry.enrollProgram programPath programs w))) =
    Some newProgram ->
  let programs' :=
    snd (fst (fst (Registry.enrollProgram programPath programs w))) in
  Registry.getProgramByPath programs' programPath = Some newProgram /\
  (forall other, other <> programPath ->
     Registry.getProgramByPath programs' other =
     Registry.getProgramByPath programs other) /\
  (~ In (EP.id newProgram) (map EP.id programs) ->
   Registry.getProgramById programs' (EP.id newProgram) = Some newProgram).
Proof.
  intros Hres programs'.
  destruct (existsSync w programPath) eqn:He.
  2:{ destruct (enrollProgram_failure programPath programs w (or_introl He))
        as [error Hf].
      rewrite Hf in Hres. discriminate. }
  destruct (Registry.isProgramEnrolled programs programPath) eqn:Hn.
  1:{ destruct (enrollProgram_failure programPath programs w (or_intror Hn))
        as [error Hf].
      rewrite Hf in Hres. discriminate. }
  destruct (enrollProgram_success programPath programs w He Hn)
    as [w2 [_ Hs]].
  unfold programs'. rewrite Hs in *. simpl in *.
  injection Hres as Hnew.
  assert (Hpath : EP.path newProgram = programPath) by now rewrite <- Hnew.
  rewrite Hnew.
  assert (Hnone : forall q, In q programs ->
                    String.eqb (EP.path q) programPath = false).
  { intros q Hq. apply String.eqb_neq. intros E.
    apply isProgramEnrolled_false in Hn. apply Hn.
    unfold Registry.getEnrolledPaths. rewrite <- E. now apply in_map. }
  split; [|split].
  - unfold Registry.getProgramByPath. clear -Hnone Hpath.
    induction programs as [|p rest IH]; simpl.
    + rewrite Hpath, String.eqb_refl. reflexivity.
    + rewrite (Hnone p) by (simpl; auto). apply IH.
      intros q Hq. apply Hnone. simpl; auto.
  - intros other Ho. unfold Registry.getProgramByPath. clear -Ho Hpath.
    induction programs as [|p rest IH]; simpl.
    + rewrite Hpath. apply String.eqb_neq in Ho.
      rewrite String.eqb_sym in Ho. now rewrite Ho.
    + destruct (String.eqb (EP.path p) other); [reflexivity | apply IH].
  - intros Hfresh. unfold Registry.getProgramById. clear -Hfresh.
    induction programs as [|p rest IH]; simpl in *.
    + now rewrite String.eqb_refl.
    + destruct (String.eqb_spec (EP.id p) (EP.id newProgram)) as [E|E].
      * exfalso. apply Hfresh. auto.
      * apply IH. tauto.
Qed.

(** X4: removing the record a successful [enrollProgram] returned, by its
    id, gives back the records there were before, when no older record has
    that id. *)
Theorem enroll_then_remove (programPath : string) (programs : list EP.t)
    (w : World) (newProgram : EP.t) :
  fst (fst (fst (Registry.enrollProgram programPath programs w))) =
    Some newProgram ->
  ~ In (EP.id newProgram) (map EP.id programs) ->
  let '(_, programs1, w1, _) :=
    Registry.enrollProgram programPath programs w in
  let '(removed, programs2, _, _) :=
    Registry.removeProgram (EP.id newProgram) programs1 w1 in
  removed = true /\ programs2 = programs.
Proof.
  intros Hres Hfresh.
  destruct (existsSync w programPath) eqn:He.
  2:{ destruct (enrollProgram_failure programPath programs w (or_introl He))
        as [error Hf].
      rewrite Hf in Hres. discriminate. }
  destruct (Registry.isProgramEnrolled programs programPath) eqn:Hn.
  1:{ destruct (enrollProgram_failure programPath programs w (or_intror Hn))
        as [error Hf].
      rewrite Hf in Hres. discriminate. }
  destruct (enrollProgram_success programPath programs w He Hn)
    as [w2 [_ Hs]].
  rewrite Hs in *. simpl in Hres. injection Hres as Hnew. rewrite Hnew.
  set (w1 := fst (Registry.savePrograms (programs ++ [newProgram]) w2)).
  assert (Hfind : Registry.getProgramById (programs ++ [newProgram])
                    (EP.id newProgram) = Some newProgram).
  { unfold Registry.getProgramById. clear -Hfresh.
    induction programs as [|p rest IH]; simpl in *.
    - now rewrite String.eqb_refl.
    - destruct (String.eqb_spec (EP.id p) (EP.id newProgram)) as [E|E].
      + exfalso. apply Hfresh. auto.
      + apply IH. tauto. }
  destruct (removeProgram_found (EP.id newProgram) (programs ++ [newProgram])
              w1 newProgram Hfind)
    as [pre [post [Hp [Hpre [_ Hr]]]]].
  rewrite Hr. split; [reflexivity|].
  assert (Hpost : post = []).
  { destruct post as [|x post]; [reflexivity|]. exfalso.
    assert (Hin : In newProgram programs).
    { assert (Hrev : rev (programs ++ [newProgram]) =
                     rev (pre ++ newProgram :: x :: post))
        by now rewrite Hp.
      rewrite !rev_app_distr in Hrev. simpl in Hrev.
      rewrite <- !app_assoc in Hrev. simpl in Hrev.
      assert (Hin : In newProgram (rev programs)).
      { destruct (rev post) as [|y l] eqn:E; simpl in Hrev.
        - injection Hrev as _ Hrev. rewrite Hrev. simpl; auto.
        - injection Hrev as _ Hrev. rewrite Hrev.
          apply in_or_app. right. simpl. auto. }
      now apply in_rev in Hin. }
    apply Hfresh. now apply in_map. }
  subst post. rewrite app_nil_r.
  apply app_inj_tail in Hp. symmetry. tauto.
Qed.

Lemma allOnDisk_paths (w : World) (programs : list EP.t) :
  AllOnDisk w programs <->
  forall x, In x (Registry.getEnrolledPaths programs) -> existsSync w x = true.
Proof.
  unfold AllOnDisk, Registry.getEnrolledPaths. split.
  - intros H x Hx. apply in_map_iff in Hx as [p [<- Hp]]. now apply H.
  - intros H p Hp. apply H. now apply in_map.
Qed.

Lemma sameDisk_exists (w w' : World) (q : string) :
  sameDisk w w' -> existsSync w' q = existsSync w q.
Proof. intros [H _]. unfold existsSync. now rewrite H. Qed.

(** What every call on the registry keeps *)
Lemma registryCall_invariants (c : RegistryCall) (programs : list EP.t)
    (w : World) :
  DistinctPaths programs -> AllOnDisk w programs ->
  DistinctPaths (fst (registryCall c (programs, w))) /\
  AllOnDisk (snd (registryCall c (programs, w)))
            (fst (registryCall c (programs, w))).
Proof.
  intros Hd Ha. destruct c as [p | i | p]; unfold registryCall.
  - pose proof (enrollProgram_distinct_paths p programs w Hd) as Hd'.
    destruct (existsSync w p) eqn:He.
    2:{ destruct (enrollProgram_failure p programs w (or_introl He))
          as [error Hf]. rewrite Hf in *. simpl. auto. }
    destruct (Registry.isProgramEnrolled programs p) eqn:Hn.
    1:{ destruct (enrollProgram_failure p programs w (or_intror Hn))
          as [error Hf]. rewrite Hf in *. simpl. auto. }
    destruct (enrollProgram_success p programs w He Hn) as [w2 [Hs Hr]].
    rewrite Hr in *. simpl in *. split; [exact Hd'|].
    intros q Hq. apply savePrograms_keeps.
    rewrite (sameDisk_exists w w2 _ Hs).
    apply in_app_or in Hq as [Hq | [<- | []]]; [now apply Ha | exact He].
  - pose proof (removeProgram_distinct_paths i programs w Hd) as Hd'.
    destruct (Registry.getProgramById programs i) as [r|] eqn:E.
    + destruct (removeProgram_found i programs w r E)
        as [pre [post [Hp [_ [_ Hr]]]]].
      rewrite Hr in *. simpl in *. split; [exact Hd'|].
      intros q Hq. apply savePrograms_keeps. apply Ha. subst programs.
      apply in_app_or in Hq as [Hq | Hq]; apply in_or_app; simpl; auto.
    + rewrite (removeProgram_missing i programs w E). simpl. auto.
  - destruct (Registry.getProgramByPath programs p) as [r|] eqn:E.
    + destruct (updateLastSeen_found p programs w r E) as [w1 [Hs Hr]].
      rewrite Hr. simpl. split.
      * unfold DistinctPaths. now rewrite stampLastSeen_paths.
      * apply allOnDisk_paths. rewrite stampLastSeen_paths.
        intros x Hx. apply savePrograms_keeps.
        rewrite (sameDisk_exists w w1 _ Hs).
        now apply (proj1 (allOnDisk_paths w programs)).
    + unfold Registry.updateLastSeen. rewrite E. simpl. auto.
Qed.

(** X5: whatever is enrolled, removed or stamped, in any order, the paths
    of the records stay pairwise distinct and every record's path exists on
    disk, once this holds. *)
Theorem registry_invariants (calls : list RegistryCall)
    (programs : list EP.t) (w : World) :
  DistinctPaths programs -> AllOnDisk w programs ->
  DistinctPaths (fst (registryRun calls (programs, w))) /\
  AllOnDisk (snd (registryRun calls (programs, w)))
            (fst (registryRun calls (programs, w))).
Proof.
  revert programs w. unfold registryRun.
  induction calls as [|c calls IH]; intros programs w Hd Ha;
    cbn [fold_left]; [auto|].
  destruct (registryCall_invariants c programs w Hd Ha) as [Hd' Ha'].
  destruct (registryCall c (programs, w)) as [programs' w'].
  now apply IH.
Qed.

Lemma synced_not_dir (w : World) (programs : list EP.t) :
  Synced w programs -> fs w dataFilePath <> Some Dir.
Proof. unfold Synced. intros H. rewrite H. discriminate. Qed.

Lemma savePrograms_fault (programs : list EP.t) (w : World) :
  fs_fault (fst (Registry.savePrograms programs w)) = fs_fault w.
Proof. now destruct (savePrograms_frame programs w) as [H _]. Qed.

Lemma registryCall_synced (c : RegistryCall) (programs : list EP.t)
    (w : World) :
  fs_fault w OpWrite = None -> Synced w programs ->
  fs_fault (snd (registryCall c (programs, w))) OpWrite = None /\
  Synced (snd (registryCall c (programs, w)))
         (fst (registryCall c (programs, w))).
Proof.
  intros Hf Hs. pose proof (synced_not_dir w programs Hs) as Hnd.
  destruct c as [p | i | p]; unfold registryCall.
  - destruct (existsSync w p) eqn:He.
    2:{ destruct (enrollProgram_failure p programs w (or_introl He))
          as [error Hr]. rewrite Hr. simpl. auto. }
    destruct (Registry.isProgramEnrolled programs p) eqn:Hn.
    1:{ destruct (enrollProgram_failure p programs w (or_intror Hn))
          as [error Hr]. rewrite Hr. simpl. auto. }
    destruct (enrollProgram_success p programs w He Hn)
      as [w2 [[H1 H2] Hr]].
    rewrite Hr. simpl. rewrite savePrograms_fault, H2. split; [exact Hf|].
    apply savePrograms_synced; [now rewrite H2 | now rewrite H1].
  - destruct (Registry.getProgramById programs i) as [r|] eqn:E.
    + destruct (removeProgram_found i programs w r E)
        as [pre [post [Hp [_ [_ Hr]]]]].
      rewrite Hr. simpl. rewrite savePrograms_fault. split; [exact Hf|].
      now apply savePrograms_synced.
    + rewrite (removeProgram_missing i programs w E). simpl. auto.
  - destruct (Registry.getProgramByPath programs p) as [r|] eqn:E.
    + destruct (updateLastSeen_found p programs w r E)
        as [w1 [[H1 H2] Hr]].
      rewrite Hr. simpl. rewrite savePrograms_fault, H2. split; [exact Hf|].
      apply savePrograms_synced; [now rewrite H2 | now rewrite H1].
    + unfold Registry.updateLastSeen. rewrite E. simpl. auto.
Qed.

(** X6: as long as the file system takes the writes, the data file holds
    the records in memory after any calls on the registry, the failed ones
    included, once it did. *)
Theorem registry_stays_synced (calls : list RegistryCall)
    (programs : list EP.t) (w : World) :
  fs_fault w OpWrite = None -> Synced w programs ->
  Synced (snd (registryRun calls (programs, w)))
         (fst (registryRun calls (programs, w))).
Proof.
  revert programs w. unfold registryRun.
  induction calls as [|c calls IH]; intros programs w Hf Hs;
    cbn [fold_left]; [assumption|].
  destruct (registryCall_synced c programs w Hf Hs) as [Hf' Hs'].
  destruct (registryCall c (programs, w)) as [programs' w'].
  now apply IH.
Qed.

Lemma filter_all {A : Type} (f : A -> bool) (l : list A) :
  (forall x, In x l -> f x = true) -> filter f l = l.
Proof.
  induction l as [|x l IH]; simpl; intros H; [reflexivity|].
  rewrite (H x) by auto. f_equal. apply IH. auto.
Qed.

Lemma filter_none {A : Type} (f : A -> bool) (l : list A) :
  (forall x, In x l -> f x = false) -> filter f l = [].
Proof.
  induction l as [|x l IH]; simpl; intros H; [reflexivity|].
  rewrite (H x) by auto. apply IH. auto.
Qed.

(** X7: when the data file holds the records, their paths exist and the
    document written parses back to them, loading yields these records
    again, removes none, and writes them back. *)
Theorem reload_round_trip (programs0 programs : list EP.t) (w : World) :
  Synced w programs ->
  AllOnDisk w programs ->
  fs_fault w OpRead = None ->
  schema_parse (JSON_stringify programs) = inr programs ->
  let '(loaded, w', evs) := Registry.loadPrograms programs0 w in
  loaded = programs /\
  (forall p, ~ In (Registry.removalLog p) evs) /\
  In (WriteFile dataFilePath (JSON_stringify programs)) evs /\
  (fs_fault w OpWrite = None -> Synced w' programs).
Proof.
  intros Hs Ha Hread Hparse. unfold Registry.loadPrograms, existsSync.
  pose proof (synced_not_dir w programs Hs) as Hnd.
  unfold Synced in Hs. rewrite Hs. simpl.
  unfold readFileSync. rewrite Hread, Hs, Hparse.
  assert (Hkeep : filter (Registry.pathStillExists w) programs = programs).
  { apply filter_all. intros p Hp. now apply Ha. }
  assert (Hlogs : Registry.removalLogs w programs = []).
  { unfold Registry.removalLogs. rewrite filter_none; [reflexivity|].
    intros p Hp. unfold Registry.pathStillExists. now rewrite (Ha p Hp). }
  rewrite Hkeep, Hlogs.
  pose proof (savePrograms_writes programs w) as Hw.
  pose proof (savePrograms_synced programs w) as Hsy.
  assert (Hsilent : forall p,
            ~ In (Registry.removalLog p) (snd (Registry.savePrograms programs w))).
  { intros p. unfold Registry.savePrograms.
    destruct (writeFileSync w dataFilePath _); simpl;
      intros H; repeat (destruct H as [H | H]; [discriminate|]);
      contradiction. }
  destruct (Registry.savePrograms programs w) as [w2 evs]. simpl in *.
  repeat split; auto.
Qed.

(** X8: a data file that does not parse is left as it is by the load, with
    the registry empty; the next enrollment then writes the data file anew,
    holding the one record enrolled, so the records of the old file are
    lost. *)
Theorem unparsable_file_overwritten (w : World) (data error : string)
    (programPath : string) :
  existsSync w dataFilePath = true ->
  readFileSync w dataFilePath = inr data ->
  schema_parse data = inl error ->
  existsSync w programPath = true ->
  fs_fault w OpWrite = None ->
  let '(programs, w1, _) := Registry.construct w in
  programs = [] /\
  fs w1 dataFilePath = Some (File data) /\
  let '(result, programs', w2, _) :=
    Registry.enrollProgram programPath programs w1 in
  result = Some (enrolledRecord programPath w) /\
  programs' = [enrolledRecord programPath w] /\
  Synced w2 [enrolledRecord programPath w].
Proof.
  intros Hfile Hread Hparse He Hwr.
  unfold Registry.construct, Registry.loadPrograms.
  rewrite Hfile, Hread, Hparse. simpl.
  assert (Hdata : fs w dataFilePath = Some (File data)).
  { unfold readFileSync in Hread.
    destruct (fs_fault w OpRead); [discriminate|].
    destruct (fs w dataFilePath) as [[|content]|]; try discriminate.
    now injection Hread as ->. }
  split; [reflexivity|]. split; [exact Hdata|].
  destruct (enrollProgram_success programPath [] w He eq_refl)
    as [w2 [[H1 H2] Hr]].
  rewrite Hr. simpl. split; [reflexivity|]. split; [reflexivity|].
  apply savePrograms_synced; [now rewrite H2|].
  rewrite H1, Hdata. discriminate.
Qed.

Lemma getProgramById_unique (programs : list EP.t) (program : EP.t) :
  NoDup (map EP.id programs) -> In program programs ->
  Registry.getProgramById programs (EP.id program) = Some program.
Proof.
  unfold Registry.getProgramById.
  induction programs as [|p rest IH]; simpl; [tauto|].
  intros Hnd Hin. apply NoDup_cons_iff in Hnd as [Hnotin Hnd].
  destruct Hin as [-> | Hin]; [now rewrite String.eqb_refl|].
  destruct (String.eqb_spec (EP.id p) (EP.id program)) as [E|E].
  - exfalso. apply Hnotin. rewrite E. now apply in_map.
  - now apply IH.
Qed.


(** X10: [MonitoringManager.set(appData, false)] does nothing for a path
    that is not enrolled; for an enrolled one, when ids and paths of the
    records are pairwise distinct, it removes the record of the path and no
    other, after which the path is not monitored. *)
Theorem set_monitor_off (appData : AppData) (programs : list EP.t)
    (w : World) :
  (MonitoringManager.isMonitored programs (app_path appData) = false ->
   MonitoringManager.set appData false programs w = (programs, w, [])) /\
  (NoDup (map EP.id programs) -> DistinctPaths programs ->
   forall program,
     Registry.getProgramByPath programs (app_path appData) = Some program ->
     let '(programs', _, _) :=
       MonitoringManager.set appData false programs w in
     MonitoringManager.isMonitored programs' (app_path appData) = false /\
     ~ In program programs' /\
     forall q, In q programs -> q <> program -> In q programs').
Proof.
  unfold MonitoringManager.set, MonitoringManager.isMonitored. split.
  - intros H.
    destruct (Registry.getProgramByPath programs (app_path appData))
      as [program|] eqn:E; [|reflexivity].
    exfalso. unfold Registry.getProgramByPath in E.
    apply find_some in E as [Hin Hp]. apply String.eqb_eq in Hp.
    apply not_true_iff_false in H. apply H.
    apply isProgramEnrolled_iff. eauto.
  - intros Hids Hpaths program E. rewrite E.
    unfold Registry.getProgramByPath in E.
    apply find_some in E as [Hin Hp]. apply String.eqb_eq in Hp.
    pose proof (getProgramById_unique programs program Hids Hin) as Hfind.
    destruct (removeProgram_found (EP.id program) programs w program Hfind)
      as [pre [post [Hprog [_ [_ Hr]]]]].
    rewrite Hr. subst programs.
    unfold DistinctPaths, Registry.getEnrolledPaths in Hpaths.
    rewrite map_app in Hpaths. simpl in Hpaths.
    pose proof (NoDup_remove_2 _ _ _ Hpaths) as Hnot.
    split; [|split].
    + apply isProgramEnrolled_false. unfold Registry.getEnrolledPaths.
      rewrite map_app, <- Hp. exact Hnot.
    + intros Hq. apply Hnot. rewrite <- map_app. now apply in_map.
    + intros q Hq Hne. apply in_app_or in Hq as [Hq | [Hq | Hq]];
        [apply in_or_app; now left | congruence | apply in_or_app; now right].
Qed.

End Registry.
End RegistryLaws.

(** ** Further properties of the process scanner *)

Module ScannerLaws.
Import JsString NodePath Host Spec Laws StringFacts ScannerFacts.

Section Scanner.
Context {R : Runtime}.

Lemma getRunningProcesses_exec (w : World) :
  exec (snd (fst (ProcessMonitor.getRunningProcesses w))) = exec w.
Proof.
  unfold ProcessMonitor.getRunningProcesses,
    ProcessMonitor.getLinuxProcesses, ProcessMonitor.getMacProcesses,
    ProcessMonitor.getWindowsProcesses, ProcessMonitor.listWith, execAsync.
  destruct platform; try destruct (exec w (execs w) _); reflexivity.
Qed.

Lemma getRunningProcesses_listing (w : World) :
  match listingCommand platform with
  | Some cmd =>
      scans (snd (ProcessMonitor.getRunningProcesses w)) = [cmd] /\
      execs (snd (fst (ProcessMonitor.getRunningProcesses w))) = S (execs w)
  | None =>
      scans (snd (ProcessMonitor.getRunningProcesses w)) = [] /\
      snd (fst (ProcessMonitor.getRunningProcesses w)) = w /\
      fst (fst (ProcessMonitor.getRunningProcesses w)) = []
  end.
Proof.
  unfold ProcessMonitor.getRunningProcesses,
    ProcessMonitor.getLinuxProcesses, ProcessMonitor.getMacProcesses,
    ProcessMonitor.getWindowsProcesses, ProcessMonitor.listWith, execAsync,
    listingCommand.
  destruct platform; try destruct (exec w (execs w) _); simpl; auto.
Qed.

Lemma scans_app (a b : list Event) : scans (a ++ b) = scans a ++ scans b.
Proof. apply flat_map_app. Qed.

(** X11: the enrolled paths reported as running are the enrolled paths with
    some left out, in the same order; on Linux, macOS and Windows one
    listing of all processes is run for each enrolled path, and on any other
    platform none is run and no path is reported. *)
Theorem getRunningEnrolledPrograms_spec (enrolledPaths : list string)
    (w : World) :
  let '(running, w', evs) :=
    ProcessMonitor.getRunningEnrolledPrograms enrolledPaths w in
  Subseq running enrolledPaths /\
  match listingCommand platform with
  | Some cmd =>
      scans evs = repeat cmd (length enrolledPaths) /\
      execs w' = length enrolledPaths + execs w
  | None => scans evs = [] /\ running = [] /\ w' = w
  end.
Proof.
  revert w. induction enrolledPaths as [|p rest IH]; intros w; simpl.
  - split; [constructor|]. destruct (listingCommand platform); auto.
  - unfold ProcessMonitor.isProcessRunning.
    pose proof (getRunningProcesses_listing w) as Hl.
    destruct (ProcessMonitor.getRunningProcesses w) as [[procs w1] evs1].
    pose proof (IH w1) as H.
    destruct (ProcessMonitor.getRunningEnrolledPrograms rest w1)
      as [[running w2] evs2].
    destruct H as [Hsub Hrest]. simpl in Hl. split.
    + destruct (ProcessMonitor.isRunningIn procs p); now constructor.
    + rewrite scans_app.
      destruct (listingCommand platform) as [cmd|].
      * destruct Hl as [Hl1 Hl2]. destruct Hrest as [Hr1 Hr2].
        rewrite Hl1, Hr1, Hr2, Hl2. split; [reflexivity | lia].
      * destruct Hl as [Hl1 [Hl2 Hl3]]. destruct Hrest as [Hr1 [Hr2 Hr3]].
        subst. unfold ProcessMonitor.isRunningIn. simpl.
        rewrite Hl1. auto.
Qed.

(** X12: when the listing command fails at every run, or the platform has
    none, no enrolled path is reported as running. *)
Theorem scan_failure_reports_nothing (enrolledPaths : list string)
    (w : World) :
  listingCommand platform = None \/
  (forall n cmd, exists error, exec w n cmd = ExecFailed error) ->
  scanReports w enrolledPaths = [].
Proof.
  unfold scanReports. intros [Hnone | Hfail].
  - revert w.
    induction enrolledPaths as [|p rest IH]; intros w; simpl; [reflexivity|].
    unfold ProcessMonitor.isProcessRunning.
    pose proof (getRunningProcesses_listing w) as Hl. rewrite Hnone in Hl.
    destruct (ProcessMonitor.getRunningProcesses w) as [[procs w1] evs1].
    simpl in Hl. destruct Hl as [_ [-> ->]].
    pose proof (IH w) as H.
    destruct (ProcessMonitor.getRunningEnrolledPrograms rest w)
      as [[running w2] evs2].
    simpl in *. exact H.
  - revert w Hfail.
    induction enrolledPaths as [|p rest IH]; intros w Hfail; simpl;
      [reflexivity|].
    unfold ProcessMonitor.isProcessRunning.
    pose proof (getRunningProcesses_exec w) as He.
    assert (Hprocs : fst (fst (ProcessMonitor.getRunningProcesses w)) = []).
    { unfold ProcessMonitor.getRunningProcesses,
        ProcessMonitor.getLinuxProcesses, ProcessMonitor.getMacProcesses,
        ProcessMonitor.getWindowsProcesses, ProcessMonitor.listWith,
        execAsync.
      destruct platform; try reflexivity;
        match goal with
        | |- context [exec w (execs w) ?c] =>
            destruct (Hfail (execs w) c) as [error ->]
        end; reflexivity. }
    destruct (ProcessMonitor.getRunningProcesses w) as [[procs w1] evs1].
    simpl in He, Hprocs. subst procs.
    assert (Hfail1 : forall n cmd, exists error, exec w1 n cmd = ExecFailed error)
      by (rewrite He; exact Hfail).
    pose proof (IH w1 Hfail1) as H.
    destruct (ProcessMonitor.getRunningEnrolledPrograms rest w1)
      as [[running w2] evs2].
    simpl in *. exact H.
Qed.

Lemma splitWhitespace_tokens (inGap : bool) (s token : string) :
  In token (splitWhitespace_from inGap s) -> NoWhiteSpace token.
Proof.
  revert inGap token. induction s as [|c s IH]; intros inGap token; simpl.
  - intros [<- | []]. intros d [].
  - destruct (isWhiteSpace c) eqn:Ec.
    + destruct inGap; simpl.
      * apply IH.
      * intros [<- | H]; [intros d [] | now apply IH in H].
    + pose proof (IH false) as IHf.
      destruct (splitWhitespace_from false s) as [|h t].
      * intros [<- | []]. intros d [<- | []]. exact Ec.
      * intros [<- | H].
        -- intros d [<- | Hd]; [exact Ec|].
           apply (IHf h); simpl; auto.
        -- apply IHf. simpl; auto.
Qed.

(** X13: in a snapshot read from [ps], on Linux as on macOS, no process has
    white space in its name: the name is cut at the first white space, so a
    process is never matched by name against an executable whose basename
    holds white space. *)
Theorem ps_names_without_space (stdout : string) (proc : RP.t) :
  In proc (ProcessMonitor.parseLinux stdout) \/
  In proc (ProcessMonitor.parseMac stdout) ->
  NoWhiteSpace (RP.name proc) /\
  forall executableName c,
    In c (list_ascii_of_string executableName) -> isWhiteSpace c = true ->
    RP.name proc <> executableName.
Proof.
  intros Hin.
  assert (Hline : exists line, ProcessMonitor.parsePsLine line = Some proc).
  { destruct Hin as [H | H]; apply mapFilter_In in H as [line [_ H]];
      now exists line. }
  destruct Hline as [line Hline].
  assert (Hname : NoWhiteSpace (RP.name proc)).
  { unfold ProcessMonitor.parsePsLine, splitWhitespace in Hline.
    pose proof (splitWhitespace_tokens false (trim line)) as Ht.
    destruct (splitWhitespace_from false (trim line))
      as [|p0 [|p1 [|p2 rest]]]; try discriminate.
    injection Hline as <-. simpl. apply Ht. simpl; auto. }
  split; [exact Hname|].
  intros executableName c Hc Hws E. rewrite E in Hname.
  rewrite (Hname c Hc) in Hws. discriminate.
Qed.

End Scanner.
End ScannerLaws.

(** ** Further properties of the polling watcher *)

Module PollingLaws.
Import JsString NodePath Host Spec Laws StringFacts RegistryFacts
  PollingFacts RegistryLaws ScannerLaws.

Section Polling.
Context {R : Runtime}.

Lemma has_In (set : list string) (x : string) :
  ProcessWatcher.has set x = true <-> In x set.
Proof.
  unfold ProcessWatcher.has. rewrite existsb_exists. split.
  - intros [y [Hy E]]. apply String.eqb_eq in E. now subst.
  - intros H. exists x. split; [assumption | apply String.eqb_refl].
Qed.

Lemma newSet_In (l : list string) (x : string) :
  In x (ProcessWatcher.newSet l) <-> In x l.
Proof.
  induction l as [|y l IH]; simpl; [tauto|].
  rewrite filter_In, IH, negb_true_iff, String.eqb_neq.
  destruct (string_dec y x); [subst; tauto|].
  split; [tauto|]. intros [H | H]; [tauto|]. right. split; congruence.
Qed.

Lemma newSet_NoDup (l : list string) : NoDup (ProcessWatcher.newSet l).
Proof.
  induction l as [|y l IH]; simpl; constructor.
  - rewrite filter_In, negb_true_iff, String.eqb_neq. tauto.
  - now apply NoDup_filter.
Qed.

Lemma newSet_distinct (l : list string) :
  NoDup l -> ProcessWatcher.newSet l = l.
Proof.
  induction l as [|y l IH]; simpl; intros H; [reflexivity|].
  apply NoDup_cons_iff in H as [Hy Hl]. rewrite (IH Hl). f_equal.
  apply filter_all. intros x Hx. apply negb_true_iff, String.eqb_neq.
  congruence.
Qed.

Lemma Subseq_In {A : Type} (l' l : list A) (x : A) :
  Subseq l' l -> In x l' -> In x l.
Proof.
  induction 1 as [|y l' l _ IH | y l' l _ IH]; simpl; [tauto| |]; tauto.
Qed.

Lemma Subseq_NoDup {A : Type} (l' l : list A) :
  Subseq l' l -> NoDup l -> NoDup l'.
Proof.
  induction 1 as [|y l' l Hs IH | y l' l Hs IH]; intros Hnd;
    [constructor| |];
    apply NoDup_cons_iff in Hnd as [Hy Hl]; [now apply IH|].
  constructor; [|now apply IH].
  intros Hin. apply Hy. now apply (Subseq_In l' l).
Qed.

Lemma scanReports_subseq (w : World) (paths : list string) :
  Subseq (scanReports w paths) paths.
Proof.
  unfold scanReports.
  pose proof (getRunningProcesses_silent w) as _.
  assert (H : forall l w0,
            Subseq (fst (fst (ProcessMonitor.getRunningEnrolledPrograms l w0)))
                   l).
  { induction l as [|p rest IH]; intros w0; simpl; [constructor|].
    unfold ProcessMonitor.isProcessRunning.
    destruct (ProcessMonitor.getRunningProcesses w0) as [[procs w1] evs1].
    pose proof (IH w1) as Hs.
    destruct (ProcessMonitor.getRunningEnrolledPrograms rest w1)
      as [[running w2] evs2].
    simpl in *. destruct (ProcessMonitor.isRunningIn procs p);
      now constructor. }
  apply H.
Qed.

Lemma checkEnrolledPrograms_last (last : list string) (programs : list EP.t)
    (w : World) :
  programs <> [] ->
  fst (fst (fst (ProcessWatcher.checkEnrolledPrograms last programs w))) =
  ProcessWatcher.newSet
    (scanReports w (Registry.getEnrolledPaths programs)).
Proof.
  intros Hne.
  pose proof (checkEnrolledPrograms_events last programs programs w
                eq_refl Hne) as H.
  destruct (ProcessWatcher.checkEnrolledPrograms last programs w)
    as [[[last' ps'] w'] evs].
  cbv zeta in H. simpl. tauto.
Qed.

(** X14: the transitions a cycle logs.  A name is logged as entered exactly
    when it is the name of the record of a path that runs now and was not
    reported in the cycle before; it is logged as left exactly when it is the
    name of the record of a path that was reported before and does not run
    now.  A path whose record is gone from the registry is not logged. *)
Theorem cycle_transitions (last : list string) (programs : list EP.t)
    (w : World) :
  programs <> [] ->
  let running := scanReports w (Registry.getEnrolledPaths programs) in
  let evs := snd (ProcessWatcher.checkEnrolledPrograms last programs w) in
  (forall name,
     In (Entered name) (transitions evs) <->
     exists path program,
       In path running /\ ~ In path last /\
       Registry.getProgramByPath programs path = Some program /\
       EP.name program = name) /\
  (forall name,
     In (Exited name) (transitions evs) <->
     exists path program,
       In path last /\ ~ In path running /\
       Registry.getProgramByPath programs path = Some program /\
       EP.name program = name).
Proof.
  intros Hne running evs.
  pose proof (checkEnrolledPrograms_events last programs programs w
                eq_refl Hne) as H.
  unfold evs.
  destruct (ProcessWatcher.checkEnrolledPrograms last programs w)
    as [[[last' ps'] w'] evs0].
  destruct H as [_ [_ [Ht _]]]. fold running in Ht. simpl. rewrite Ht.
  assert (Hentered : forall t path,
            In t (enteredFor programs last path) <->
            exists program, ~ In path last /\
              Registry.getProgramByPath programs path = Some program /\
              t = Entered (EP.name program)).
  { intros t path. unfold enteredFor.
    destruct (ProcessWatcher.has last path) eqn:E.
    - apply (proj1 (has_In _ _)) in E.
      split; [intros [] | intros [p [Hn _]]; tauto].
    - assert (Hn : ~ In path last)
        by (intros Hin; apply (proj2 (has_In _ _)) in Hin; congruence).
      destruct (Registry.getProgramByPath programs path) as [program|].
      + split.
        * intros [<- | []]. now exists program.
        * intros [p [_ [Hp ->]]]. injection Hp as ->. simpl. auto.
      + split; [intros [] | intros [p [_ [Hp _]]]; discriminate]. }
  assert (Hexited : forall t path,
            In t (exitedFor programs (ProcessWatcher.newSet running) path) <->
            exists program, ~ In path running /\
              Registry.getProgramByPath programs path = Some program /\
              t = Exited (EP.name program)).
  { intros t path. unfold exitedFor.
    destruct (ProcessWatcher.has (ProcessWatcher.newSet running) path) eqn:E.
    - apply (proj1 (has_In _ _)) in E. apply (proj1 (newSet_In _ _)) in E.
      split; [intros [] | intros [p [Hn _]]; tauto].
    - assert (Hn : ~ In path running).
      { intros Hin. apply (proj2 (newSet_In _ _)) in Hin.
        apply (proj2 (has_In _ _)) in Hin. congruence. }
      destruct (Registry.getProgramByPath programs path) as [program|].
      + split.
        * intros [<- | []]. now exists program.
        * intros [p [_ [Hp ->]]]. injection Hp as ->. simpl. auto.
      + split; [intros [] | intros [p [_ [Hp _]]]; discriminate]. }
  split; intros name; rewrite in_app_iff, !in_flat_map; split.
  - intros [[path [Hp Hin]] | [path [Hp Hin]]].
    + apply Hentered in Hin as [program [Hn [Hg Ht']]].
      injection Ht' as ->. now exists path, program.
    + apply Hexited in Hin as [program [_ [_ Ht']]]. discriminate.
  - intros [path [program [Hr [Hn [Hg <-]]]]]. left. exists path.
    split; [assumption|]. apply Hentered. now exists program.
  - intros [[path [Hp Hin]] | [path [Hp Hin]]].
    + apply Hentered in Hin as [program [_ [_ Ht']]]. discriminate.
    + apply Hexited in Hin as [program [Hn [Hg Ht']]].
      injection Ht' as ->. now exists path, program.
  - intros [path [program [Hl [Hn [Hg <-]]]]]. right. exists path.
    split; [assumption|]. apply Hexited. now exists program.
Qed.

(** X15: after a cycle over a registry that is not empty, the paths
    [getCurrentlyRunningPrograms] returns are without repetition, each of
    them is enrolled and was reported by the scan, and when the enrolled
    paths are pairwise distinct they are the paths the scan reported, in the
    order of enrollment. *)
Theorem cycle_running_programs (self : ProcessWatcher.t)
    (programs : list EP.t) (w : World) :
  programs <> [] ->
  let running := scanReports w (Registry.getEnrolledPaths programs) in
  let '(self', _, _, _) := ProcessWatcher.tick self programs w in
  let current := ProcessWatcher.getCurrentlyRunningPrograms self' in
  NoDup current /\
  (forall path, In path current <->
                In path running) /\
  (forall path, In path current ->
                In path (Registry.getEnrolledPaths programs)) /\
  (DistinctPaths programs -> current = running).
Proof.
  intros Hne running. unfold ProcessWatcher.tick.
  pose proof (checkEnrolledPrograms_last
                (ProcessWatcher.lastReportedPrograms self) programs w Hne)
    as Hl.
  destruct (ProcessWatcher.checkEnrolledPrograms _ programs w)
    as [[[last' ps'] w'] evs].
  simpl in Hl. fold running in Hl. subst last'.
  unfold ProcessWatcher.getCurrentlyRunningPrograms. simpl.
  pose proof (scanReports_subseq w (Registry.getEnrolledPaths programs))
    as Hsub.
  fold running in Hsub.
  split; [apply newSet_NoDup|]. split; [intros path; apply newSet_In|].
  split.
  - intros path Hin. apply (proj1 (newSet_In _ _)) in Hin.
    now apply (Subseq_In running).
  - intros Hd. apply newSet_distinct. now apply (Subseq_NoDup running _ Hsub).
Qed.






(** X17: when the scan reports no path as running, as after a failure of
    the listing command, a cycle sends no heartbeat, leaves the records
    untouched, empties the set of running programs, and logs as left every
    path reported before whose record is still enrolled. *)
Theorem cycle_without_running (last : list string) (programs : list EP.t)
    (w : World) :
  programs <> [] ->
  scanReports w (Registry.getEnrolledPaths programs) = [] ->
  let '(last', programs', _, evs) :=
    ProcessWatcher.checkEnrolledPrograms last programs w in
  last' = [] /\ programs' = programs /\ heartbeats evs = [] /\
  transitions evs =
  flat_map
    (fun path =>
       match Registry.getProgramByPath programs path with
       | Some program => [Exited (EP.name program)]
       | None => []
       end)
    last.
Proof.
  intros Hne Hscan.
  pose proof (checkEnrolledPrograms_events last programs programs w
                eq_refl Hne) as He.
  rewrite Hscan in He.
  unfold ProcessWatcher.checkEnrolledPrograms, scanReports in *.
  destruct (Registry.getEnrolledPaths programs) as [|p0 paths] eqn:Ep;
    [destruct programs; [contradiction | discriminate]|].
  destruct (ProcessMonitor.getRunningEnrolledPrograms (p0 :: paths) w)
    as [[running0 w1] evs0].
  simpl in Hscan. subst running0. simpl in *.
  destruct He as [_ [_ [Ht Hh]]].
  repeat split; try assumption.
Qed.


Lemma append_assoc (a b c : string) :
  ((a ++ b) ++ c = a ++ (b ++ c))%string.
Proof. induction a as [|x a IH]; simpl; [reflexivity|]. now rewrite IH. Qed.

Lemma includes_part (s a b : string) :
  IsSubstring a b -> includes s a = false -> includes s b = false.
Proof.
  intros [pre [post ->]] Ha. apply not_true_iff_false. intros Hb.
  apply includes_spec in Hb as [pre' [post' ->]].
  apply not_true_iff_false in Ha. apply Ha. apply includes_spec.
  exists (pre' ++ pre)%string, (post ++ post')%string.
  rewrite !append_assoc. reflexivity.
Qed.

(** X19: the entries [code-oss], [nvim] and [neovim] of the table of editors
    never decide the language: every path gets the language the table
    without them gives, since [code] and [vim] come first and occur in
    them. *)
Theorem dead_language_entries (programPath : string) :
  ProcessWatcher.determineLanguageFromPath programPath =
  ProcessWatcher.lookupLanguage liveLanguageMap
    (toLowerCase (basename platform programPath)).
Proof.
  unfold ProcessWatcher.determineLanguageFromPath.
  set (n := toLowerCase (basename platform programPath)).
  unfold liveLanguageMap, ProcessWatcher.languageMap.
  cbn [filter fst existsb String.eqb Ascii.eqb Bool.eqb negb orb andb
       ProcessWatcher.lookupLanguage].
  destruct (includes n "code") eqn:Ecode; [reflexivity|].
  rewrite (includes_part n "code" "code-oss");
    [|exists EmptyString, "-oss"; reflexivity | exact Ecode].
  destruct (includes n "codium"); [reflexivity|].
  destruct (includes n "vim") eqn:Evim; [reflexivity|].
  rewrite (includes_part n "vim" "nvim");
    [|exists "n", EmptyString; reflexivity | exact Evim].
  rewrite (includes_part n "vim" "neovim");
    [|exists "neo", EmptyString; reflexivity | exact Evim].
  reflexivity.
Qed.

End Polling.
End PollingLaws.

(** ** Further properties of the window watcher *)

Module WindowLaws.
Import Host Spec Laws.

Lemma attachedAfter_app (n : nat) (a b : list Event) :
  attachedAfter n (a ++ b) = attachedAfter (attachedAfter n a) b.
Proof. apply fold_left_app. Qed.

Lemma onActiveWindow_tracks (windowInfo : WindowInfo) (self : Watcher.t)
    (programs : list EP.t) :
  TracksEnrollment programs self ->
  let '(self', evs) := Watcher.onActiveWindow windowInfo self programs in
  TracksEnrollment programs self' /\
  attachedAfter (flagged self) evs = flagged self'.
Proof.
  intros Ht. unfold Watcher.onActiveWindow.
  destruct (N.eqb (info_processId (win_info windowInfo)) 0);
    [split; [assumption | reflexivity]|].
  destruct (Watcher.sameProcess self windowInfo);
    [split; [assumption | reflexivity]|].
  unfold TracksEnrollment, flagged.
  destruct (Watcher.isWatchingForKeyboardEvents self) eqn:Ew; simpl;
    destruct (String.eqb (info_path (win_info windowInfo)) EmptyString)
      eqn:Ep;
    simpl; rewrite ?Ep, ?Ew; simpl; try (split; reflexivity);
    destruct (MonitoringManager.isMonitored programs
                (info_path (win_info windowInfo))) eqn:E;
    simpl; rewrite ?Ep, ?E, ?Ew; simpl; split; reflexivity.
Qed.

(** X20: over any sequence of focus events handled by a new watcher, with
    the records of the registry unchanged, at most one key listener is
    attached, one exactly when the watcher says it watches the keyboard, and
    it watches the keyboard exactly when the window it tracks has a path that
    is enrolled. *)
Theorem focus_events_keep_one_listener (windows : list WindowInfo)
    (programs : list EP.t) :
  let '(self, evs) := handleFocus windows programs Watcher.create in
  attachedAfter 0 evs =
    (if Watcher.isWatchingForKeyboardEvents self then 1 else 0) /\
  attachedAfter 0 evs <= 1 /\
  TracksEnrollment programs self.
Proof.
  assert (H : forall ws self,
            TracksEnrollment programs self ->
            let '(self', evs) := handleFocus ws programs self in
            attachedAfter (flagged self) evs = flagged self' /\
            TracksEnrollment programs self').
  { induction ws as [|windowInfo rest IH]; intros self Ht; simpl;
      [split; [reflexivity | assumption]|].
    pose proof (onActiveWindow_tracks windowInfo self programs Ht) as H1.
    destruct (Watcher.onActiveWindow windowInfo self programs)
      as [self1 evs1].
    destruct H1 as [Ht1 Ha1].
    pose proof (IH self1 Ht1) as H2.
    destruct (handleFocus rest programs self1) as [self2 evs2].
    destruct H2 as [Ha2 Ht2].
    split; [|assumption]. now rewrite attachedAfter_app, Ha1. }
  pose proof (H windows Watcher.create eq_refl) as H0.
  destruct (handleFocus windows programs Watcher.create) as [self evs].
  destruct H0 as [Ha Ht]. change (flagged Watcher.create) with 0 in Ha.
  unfold flagged in Ha. rewrite Ha.
  repeat split; try assumption.
  destruct (Watcher.isWatchingForKeyboardEvents self); lia.
Qed.

(** X21: [stop] of the window watcher leaves it without subscription and
    not watching the keyboard, whether or not the unsubscription throws; it
    unsubscribes exactly when a subscription is held, and removes the key
    listener in every case, so that a second [stop] only removes the key
    listener again. *)
Theorem window_stop_spec (unsubscribeError : option string)
    (self : Watcher.t) :
  let '(self', evs) := Watcher.stop unsubscribeError self in
  Watcher.activeWindowSubscription self' = None /\
  Watcher.isWatchingForKeyboardEvents self' = false /\
  Watcher.activeWindow self' = Watcher.activeWindow self /\
  (forall handle,
     In (UnsubscribeActiveWindow handle) evs <->
     Watcher.activeWindowSubscription self = Some handle) /\
  (exists before, evs = before ++ [RemoveKeyListener]) /\
  forall unsubscribeError',
    Watcher.stop unsubscribeError' self' = (self', [RemoveKeyListener]).
Proof.
  unfold Watcher.stop, Watcher.unwatchKeyboardEvents.
  destruct (Watcher.activeWindowSubscription self) as [handle|] eqn:E; simpl.
  - repeat split.
    + intros [H | H]; [now injection H as -> |].
      destruct unsubscribeError; simpl in H;
        repeat (destruct H as [H | H]; [discriminate|]); contradiction.
    + intros H. injection H as ->. now left.
    + destruct unsubscribeError as [error|]; simpl.
      * now exists [UnsubscribeActiveWindow handle;
                    Log ("Failed to unsubscribe from window monitoring: "
                         ++ error) (Some WARN) false].
      * now exists [UnsubscribeActiveWindow handle].
  - rewrite E. simpl. repeat split.
    + intros [H | []]. discriminate.
    + discriminate.
    + now exists [].
Qed.

Section Keys.
Variable HeartbeatData : Type.
Variable getApp : string -> string + option AppData.
Variable heartbeatData :
  WindowInfo -> option AppData -> string + option HeartbeatData.

Lemma globalKeyListener_frame (state : string) (window : string + WindowInfo)
    (self : Watcher.t) :
  let '(self', effects) :=
    KeyListener.globalKeyListener HeartbeatData getApp heartbeatData
      state window self in
  Watcher.activeWindow self' = Watcher.activeWindow self /\
  Watcher.activeWindowSubscription self' =
    Watcher.activeWindowSubscription self /\
  Watcher.isWatchingForKeyboardEvents self' =
    Watcher.isWatchingForKeyboardEvents self /\
  (Watcher.fallbackMode self = true ->
   Watcher.fallbackMode self' = true /\ warnings effects = []) /\
  (Watcher.fallbackMode self = false ->
   (warnings effects = [] /\ Watcher.fallbackMode self' = false) \/
   (length (warnings effects) = 1 /\ Watcher.fallbackMode self' = true)) /\
  (state <> "DOWN" -> self' = self /\ effects = []).
Proof.
  unfold KeyListener.globalKeyListener.
  destruct (String.eqb_spec state "DOWN") as [Hs | Hs]; simpl.
  2:{ repeat split; auto. }
  destruct window as [error | win].
  - destruct (Watcher.fallbackMode self) eqn:Ef; simpl.
    + repeat split; auto; try discriminate; intros; contradiction.
    + repeat split; auto; try discriminate; intros; contradiction.
  - destruct (getApp (info_path (win_info win))) as [message | app];
      [|destruct (heartbeatData win app) as [message | [data|]]];
      simpl; repeat split; auto; intros; contradiction.
Qed.

(** X22: whatever key events the listener handles, it warns of a failed
    window query at most once, and not at all once the watcher is in
    fallback mode; it never leaves fallback mode, and never changes the
    window tracked, the subscription or the keyboard flag. *)
Theorem key_listener_warns_once
    (events : list (string * (string + WindowInfo))) (self : Watcher.t) :
  let '(self', effects) :=
    KeyListener.handleKeys HeartbeatData getApp heartbeatData events self in
  length (warnings effects) <= 1 /\
  (Watcher.fallbackMode self = true ->
   warnings effects = [] /\ Watcher.fallbackMode self' = true) /\
  Watcher.activeWindow self' = Watcher.activeWindow self /\
  Watcher.activeWindowSubscription self' =
    Watcher.activeWindowSubscription self /\
  Watcher.isWatchingForKeyboardEvents self' =
    Watcher.isWatchingForKeyboardEvents self.
Proof.
  revert self. induction events as [|[state window] rest IH]; intros self;
    simpl.
  - repeat split; auto.
  - pose proof (globalKeyListener_frame state window self) as H1.
    destruct (KeyListener.globalKeyListener HeartbeatData getApp
                heartbeatData state window self) as [self1 effects1].
    pose proof (IH self1) as H2.
    destruct (KeyListener.handleKeys HeartbeatData getApp heartbeatData
                rest self1) as [self2 effects2].
    destruct H1 as [A1 [A2 [A3 [A4 [A5 _]]]]].
    destruct H2 as [B1 [B2 [B3 [B4 B5]]]].
    unfold warnings in *. rewrite flat_map_app, length_app.
    split; [|split; [|split; [|split]]]; try congruence.
    + destruct (Watcher.fallbackMode self) eqn:Ef.
      * destruct (A4 eq_refl) as [Hf Hw]. destruct (B2 Hf) as [Hw2 _].
        rewrite Hw, Hw2. simpl. lia.
      * destruct (A5 eq_refl) as [[Hw Hf] | [Hw Hf]].
        -- rewrite Hw. simpl. exact B1.
        -- destruct (B2 Hf) as [Hw2 _]. rewrite Hw, Hw2. simpl. lia.
    + intros Hf. destruct (A4 Hf) as [Hf1 Hw]. destruct (B2 Hf1) as [Hw2 Hf2].
      rewrite Hw, Hw2. split; [reflexivity | exact Hf2].
Qed.

End Keys.
End WindowLaws.

(** ** Properties of the handlers of [main.ts] *)

Module MainLaws.
Import JsString NodePath Host Spec Laws StringFacts RegistryFacts
  PollingFacts PollingLaws.

Lemma removeFirst_eq (pattern s : string) :
  Main.removeFirst pattern s =
  if startsWith s pattern then substr (String.length pattern) s
  else match s with
       | EmptyString => EmptyString
       | String c s' => String c (Main.removeFirst pattern s')
       end.
Proof. destruct s; reflexivity. Qed.

Lemma substr_append (a b : string) : substr (String.length a) (a ++ b) = b.
Proof.
  induction a as [|c a IH]; simpl; [now destruct b | exact IH].
Qed.

Lemma removeFirst_prefix (pattern rest : string) :
  Main.removeFirst pattern (pattern ++ rest) = rest.
Proof.
  rewrite removeFirst_eq.
  assert (H : startsWith (pattern ++ rest) pattern = true)
    by (apply startsWith_spec; now exists rest).
  rewrite H. apply substr_append.
Qed.

Lemma dropLastChar_append (s : string) (c : ascii) :
  Main.dropLastChar (s ++ String c EmptyString) = s.
Proof.
  induction s as [|d s IH]; simpl; [reflexivity|].
  rewrite IH. destruct s; reflexivity.
Qed.

Lemma onSecondInstance_last (args : list string) (url : string) (c : ascii) :
  Main.onSecondInstance (args ++ [(url ++ String c EmptyString)%string]) =
  if String.eqb url EmptyString then Main.NoAction
  else Main.handleDeepLink url.
Proof.
  unfold Main.onSecondInstance. rewrite rev_app_distr.
  cbn [rev app]. now rewrite dropLastChar_append.
Qed.

(** X23: a deep link [wakatime://] followed by a name opens the settings
    exactly for the name [settings] and the enrolled programs exactly for
    the name [monitoredApps]; a second instance passes its last argument
    without its last character, so that the link with one more character at
    its end does the same there. *)
Theorem deep_link_dispatch (name : string) :
  (Main.handleDeepLink ("wakatime://" ++ name) = Main.OpenSettings <->
   name = "settings") /\
  (Main.handleDeepLink ("wakatime://" ++ name) = Main.OpenEnrolledPrograms <->
   name = "monitoredApps") /\
  (forall args c,
     Main.onSecondInstance
       (args ++ [("wakatime://" ++ name ++ String c EmptyString)%string]) =
     Main.handleDeepLink ("wakatime://" ++ name)) /\
  Main.onSecondInstance [] = Main.NoAction.
Proof.
  assert (Hpath : Main.removeFirst (Main.WAKATIME_PROTOCALL ++ "://")
                    ("wakatime://" ++ name) = name).
  { change (Main.WAKATIME_PROTOCALL ++ "://")%string with "wakatime://".
    apply removeFirst_prefix. }
  unfold Main.handleDeepLink. rewrite Hpath.
  split; [|split; [|split]].
  - destruct (String.eqb_spec name "settings") as [E|E]; [tauto|].
    destruct (String.eqb name "monitoredApps"); split;
      try discriminate; contradiction.
  - destruct (String.eqb_spec name "settings") as [E|E].
    + subst. split; discriminate.
    + destruct (String.eqb_spec name "monitoredApps") as [E'|E'];
        [tauto|]. split; [discriminate | contradiction].
  - intros args c.
    rewrite <- PollingLaws.append_assoc, onSecondInstance_last.
    change (("wakatime://" ++ name =? EmptyString)%string) with false.
    cbv iota. unfold Main.handleDeepLink. now rewrite Hpath.
  - reflexivity.
Qed.

Lemma pushIfAbsent_cases (allApps : list AppData) (e : AppData) :
  (In (app_path e) (map app_path allApps) /\
   Main.pushIfAbsent allApps e = allApps) \/
  (~ In (app_path e) (map app_path allApps) /\
   Main.pushIfAbsent allApps e = allApps ++ [e]).
Proof.
  unfold Main.pushIfAbsent.
  destruct (find (fun app => String.eqb (app_path app) (app_path e)) allApps)
    as [a|] eqn:E.
  - left. apply find_some in E as [Hin Hp]. apply String.eqb_eq in Hp.
    split; [|reflexivity]. rewrite <- Hp. now apply in_map.
  - right. split; [|reflexivity]. intros Hin.
    apply in_map_iff in Hin as [a [Hp Ha]].
    pose proof (find_none _ _ E a Ha) as Hf. simpl in Hf.
    apply String.eqb_neq in Hf. contradiction.
Qed.

Lemma fold_pushIfAbsent (enrolledApps apps : list AppData) :
  exists added,
    fold_left Main.pushIfAbsent enrolledApps apps = apps ++ added /\
    (forall a, In a added ->
       In a enrolledApps /\ ~ In (app_path a) (map app_path apps)) /\
    (forall e, In e enrolledApps ->
       In (app_path e)
          (map app_path (fold_left Main.pushIfAbsent enrolledApps apps))) /\
    (NoDup (map app_path apps) ->
     NoDup (map app_path (fold_left Main.pushIfAbsent enrolledApps apps))).
Proof.
  revert apps. induction enrolledApps as [|e rest IH]; intros apps; simpl.
  - exists []. rewrite app_nil_r. repeat split; auto; intros a [].
  - destruct (pushIfAbsent_cases apps e) as [[Hin ->] | [Hnot ->]].
    + destruct (IH apps) as [added [Hr [Ha [Hc Hn]]]].
      exists added. split; [exact Hr|]. split; [|split; [|exact Hn]].
      * intros a Hadd. destruct (Ha a Hadd). auto.
      * intros x [<- | Hx]; [|now apply Hc].
        rewrite Hr, map_app. apply in_or_app. now left.
    + destruct (IH (apps ++ [e])) as [added [Hr [Ha [Hc Hn]]]].
      exists (e :: added). split; [|split; [|split]].
      * rewrite Hr, <- app_assoc. reflexivity.
      * intros a [<- | Hadd]; [auto|].
        destruct (Ha a Hadd) as [H1 H2]. split; [auto|].
        intros H. apply H2. rewrite map_app. apply in_or_app. now left.
      * intros x [<- | Hx]; [|now apply Hc].
        rewrite Hr, !map_app. apply in_or_app. left.
        apply in_or_app. right. simpl. auto.
      * intros Hnd. apply Hn. rewrite map_app. simpl.
        apply NoDup_app; [assumption | repeat constructor; simpl; tauto|].
        intros x Hx [<- | []]. contradiction.
Qed.

(** X24: the list of all available applications starts with the installed
    ones as they are; the applications added after them are enrolled
    programs whose path no installed application has; the path of every
    enrolled program occurs in the list; and when the installed applications
    have pairwise distinct paths, so has the list. *)
Theorem getAllAvailableApps_spec (apps : list AppData)
    (programs : list EP.t) :
  exists added,
    Main.getAllAvailableApps apps programs = apps ++ added /\
    (forall a, In a added ->
       (exists program, In program programs /\ a = Main.enrolledAsApp program)
       /\ ~ In (app_path a) (map app_path apps)) /\
    (forall program, In program programs ->
       In (EP.path program)
          (map app_path (Main.getAllAvailableApps apps programs))) /\
    (NoDup (map app_path apps) ->
     NoDup (map app_path (Main.getAllAvailableApps apps programs))).
Proof.
  unfold Main.getAllAvailableApps, Registry.getAllPrograms.
  destruct (fold_pushIfAbsent (map Main.enrolledAsApp programs) apps)
    as [added [Hr [Ha [Hc Hn]]]].
  exists added. split; [exact Hr|]. split; [|split; [|exact Hn]].
  - intros a Hadd. destruct (Ha a Hadd) as [H1 H2]. split; [|exact H2].
    apply in_map_iff in H1 as [program [<- Hp]]. now exists program.
  - intros program Hp.
    apply (Hc (Main.enrolledAsApp program)). now apply in_map.
Qed.

Lemma filter_subseq (l' l : list string) :
  Subseq l' l -> NoDup l ->
  filter (Main.arrayIncludes l') l = l'.
Proof.
  unfold Main.arrayIncludes.
  induction 1 as [|x l' l Hs IH | x l' l Hs IH]; intros Hnd;
    [reflexivity| |]; apply NoDup_cons_iff in Hnd as [Hx Hl]; simpl.
  - assert (E : existsb (String.eqb x) l' = false).
    { apply not_true_iff_false. intros H. apply existsb_exists in H
        as [y [Hy Hxy]]. apply String.eqb_eq in Hxy. subst y.
      apply Hx. now apply (Subseq_In l' l). }
    rewrite E. now apply IH.
  - rewrite String.eqb_refl. simpl. f_equal.
    transitivity (filter (fun y => existsb (String.eqb y) l') l);
      [|now apply IH].
    apply filter_ext_in.
    intros y Hy. simpl. destruct (String.eqb_spec y x) as [->|E];
      [contradiction | reflexivity].
Qed.

Section Open.
Context {R : Runtime}.

(** X25: [getOpenApps] answers nothing while there is no watcher; after a
    cycle of the watcher over records of pairwise distinct paths it answers
    one application for each path the scan reported as running, in that
    order, each with the path as its id. *)
Theorem getOpenApps_after_cycle (self : ProcessWatcher.t)
    (programs : list EP.t) (w : World) :
  programs <> [] ->
  DistinctPaths programs ->
  Main.getOpenApps programs None = [] /\
  let '(self', programs', _, _) := ProcessWatcher.tick self programs w in
  let openApps := Main.getOpenApps programs' (Some self') in
  map app_path openApps =
    scanReports w (Registry.getEnrolledPaths programs) /\
  map app_id openApps = map app_path openApps.
Proof.
  intros Hne Hd. split.
  - unfold Main.getOpenApps. simpl.
    induction (Registry.getAllPrograms programs); [reflexivity | assumption].
  - unfold ProcessWatcher.tick.
    pose proof (checkEnrolledPrograms_events
                  (ProcessWatcher.lastReportedPrograms self) programs
                  programs w eq_refl Hne) as He.
    destruct (ProcessWatcher.checkEnrolledPrograms _ programs w)
      as [[[last' ps'] w'] evs].
    cbv zeta in He. destruct He as [Hl [Hi _]].
    pose proof (scanReports_subseq w (Registry.getEnrolledPaths programs))
      as Hsub.
    set (running := scanReports w (Registry.getEnrolledPaths programs)) in *.
    assert (Hlast : last' = running).
    { rewrite Hl. apply newSet_distinct.
      now apply (Subseq_NoDup running _ Hsub). }
    subst last'. unfold Main.getOpenApps, Registry.getAllPrograms,
      ProcessWatcher.getCurrentlyRunningPrograms. simpl.
    rewrite !map_map. simpl. split; [|reflexivity].
    assert (Hmf : forall l,
              map EP.path
                (filter (fun program =>
                           Main.arrayIncludes running (EP.path program)) l) =
              filter (Main.arrayIncludes running) (map EP.path l)).
    { induction l as [|q l IHl]; simpl; [reflexivity|].
      destruct (Main.arrayIncludes running (EP.path q)); simpl;
        now rewrite IHl. }
    rewrite Hlast.
    transitivity (filter (Main.arrayIncludes running)
                    (Registry.getEnrolledPaths ps'));
      [rewrite <- Hmf; reflexivity|].
    rewrite (identity_paths ps' programs Hi).
    now apply filter_subseq.
Qed.

End Open.
End MainLaws.

(** ** The further properties on the sample host *)

Module LawSamples.
Import JsString NodePath Host Spec Laws.

(** A first run writes an empty registry. *)
Lemma loadPrograms_first_run_sample :
  let R := Sample.runtime in
  let '(programs, w', evs) := Registry.construct SampleMore.freshWorld in
  programs = [] /\
  existsSync w' dataDir = true /\
  Synced w' [] /\
  In (WriteFile dataFilePath (JSON_stringify [])) evs /\
  forall p, existsSync SampleMore.freshWorld p = true ->
            existsSync w' p = true.
Proof.
  intros R.
  apply (proj2 (RegistryLaws.loadPrograms_first_run (R := R)
                  SampleMore.freshWorld eq_refl)).
  - discriminate.
  - reflexivity.
  - reflexivity.
Defined.

(** [nano], once enrolled, is found by its path and by its id. *)
Lemma lookup_after_enroll_sample :
  let R := Sample.runtime in
  let newProgram := enrolledRecord "/usr/bin/nano" Sample.world in
  let programs' :=
    snd (fst (fst (Registry.enrollProgram "/usr/bin/nano"
                     [Sample.code; Sample.vim] Sample.world))) in
  Registry.getProgramByPath programs' "/usr/bin/nano" = Some newProgram /\
  (forall other, other <> "/usr/bin/nano" ->
     Registry.getProgramByPath programs' other =
     Registry.getProgramByPath [Sample.code; Sample.vim] other) /\
  (~ In (EP.id newProgram) (map EP.id [Sample.code; Sample.vim]) ->
   Registry.getProgramById programs' (EP.id newProgram) = Some newProgram).
Proof.
  intros R newProgram.
  apply (RegistryLaws.lookup_after_enroll (R := R) "/usr/bin/nano"
           [Sample.code; Sample.vim] Sample.world newProgram).
  reflexivity.
Defined.

(** Enrolling [nano] and removing it again leaves [code] and [vim]. *)
Lemma enroll_then_remove_sample :
  let R := Sample.runtime in
  let newProgram := enrolledRecord "/usr/bin/nano" Sample.world in
  let '(_, programs1, w1, _) :=
    Registry.enrollProgram "/usr/bin/nano" [Sample.code; Sample.vim]
      Sample.world in
  let '(removed, programs2, _, _) :=
    Registry.removeProgram (EP.id newProgram) programs1 w1 in
  removed = true /\ programs2 = [Sample.code; Sample.vim].
Proof.
  intros R newProgram.
  apply (RegistryLaws.enroll_then_remove (R := R) "/usr/bin/nano"
           [Sample.code; Sample.vim] Sample.world newProgram).
  - reflexivity.
  - intros [H | [H | []]]; discriminate.
Defined.

Lemma sample_distinct :
  let R := Sample.runtime in DistinctPaths [Sample.code; Sample.vim].
Proof.
  intros R. unfold DistinctPaths. simpl.
  repeat constructor; simpl; intuition discriminate.
Qed.

Lemma sample_on_disk :
  let R := Sample.runtime in AllOnDisk Sample.world [Sample.code; Sample.vim].
Proof. intros R p [<- | [<- | []]]; reflexivity. Qed.

(** A session of calls keeps the paths distinct and on disk. *)
Lemma registry_invariants_sample :
  let R := Sample.runtime in
  let s := registryRun SampleMore.session
             ([Sample.code; Sample.vim], Sample.world) in
  DistinctPaths (fst s) /\ AllOnDisk (snd s) (fst s).
Proof.
  intros R s.
  apply (RegistryLaws.registry_invariants (R := R) SampleMore.session
           [Sample.code; Sample.vim] Sample.world).
  - exact sample_distinct.
  - exact sample_on_disk.
Defined.

(** A session of calls keeps the data file in step. *)
Lemma registry_stays_synced_sample :
  let R := Sample.runtime in
  let s := registryRun SampleMore.session
             ([Sample.code; Sample.vim], Sample.world) in
  Synced (snd s) (fst s).
Proof.
  intros R s.
  apply (RegistryLaws.registry_stays_synced (R := R) SampleMore.session
           [Sample.code; Sample.vim] Sample.world); reflexivity.
Defined.

(** Loading the data file of the sample world gives [code] and [vim]. *)
Lemma reload_round_trip_sample :
  let R := Sample.runtime in
  let '(loaded, w', evs) := Registry.loadPrograms [] Sample.world in
  loaded = [Sample.code; Sample.vim] /\
  (forall p, ~ In (Registry.removalLog p) evs) /\
  In (WriteFile dataFilePath (JSON_stringify [Sample.code; Sample.vim])) evs /\
  (fs_fault Sample.world OpWrite = None ->
   Synced w' [Sample.code; Sample.vim]).
Proof.
  intros R.
  apply (RegistryLaws.reload_round_trip (R := R) []
           [Sample.code; Sample.vim] Sample.world).
  - reflexivity.
  - exact sample_on_disk.
  - reflexivity.
  - reflexivity.
Defined.

(** After a data file that does not parse, enrolling [code] leaves a data
    file with [code] alone. *)
Lemma unparsable_file_overwritten_sample :
  let R := Sample.runtime in
  let w := SampleMore.corruptWorld in
  let '(programs, w1, _) := Registry.construct w in
  programs = [] /\
  fs w1 dataFilePath = Some (File "{ programs: ") /\
  let '(result, programs', w2, _) :=
    Registry.enrollProgram "/usr/bin/code" programs w1 in
  result = Some (enrolledRecord "/usr/bin/code" w) /\
  programs' = [enrolledRecord "/usr/bin/code" w] /\
  Synced w2 [enrolledRecord "/usr/bin/code" w].
Proof.
  intros R w.
  apply (RegistryLaws.unparsable_file_overwritten (R := R) w "{ programs: "
           "SyntaxError: Unexpected token in JSON at position 0"
           "/usr/bin/code"); reflexivity.
Defined.

(** When [ps] fails, nothing is reported as running. *)
Lemma scan_failure_reports_nothing_sample :
  let R := Sample.runtime in
  scanReports SampleMore.failingWorld ["/usr/bin/code"; "/usr/bin/vim"] = [].
Proof.
  intros R.
  apply (ScannerLaws.scan_failure_reports_nothing (R := R)).
  right. intros n cmd. eexists. reflexivity.
Defined.

(** The name of the process of [code] in a listing of [ps] *)
Lemma ps_names_without_space_sample :
  let R := Sample.runtime in
  let proc := RP.mk None "code" "/usr/bin/code --unity-launch" in
  NoWhiteSpace (RP.name proc) /\
  forall executableName c,
    In c (list_ascii_of_string executableName) -> isWhiteSpace c = true ->
    RP.name proc <> executableName.
Proof.
  intros R proc.
  apply (ScannerLaws.ps_names_without_space (R := R)
           (Sample.psInit ++ ProcessMonitor.newline ++ Sample.psCode) proc).
  left. vm_compute. right. left. reflexivity.
Defined.

(** In the sample world, with [vim] reported before, a cycle finds [code]
    alone. *)
Lemma cycle_transitions_sample :
  let R := Sample.runtime in
  let programs := [Sample.code; Sample.vim] in
  let last := ["/usr/bin/vim"] in
  let running :=
    scanReports Sample.world (Registry.getEnrolledPaths programs) in
  let evs :=
    snd (ProcessWatcher.checkEnrolledPrograms last programs Sample.world) in
  running = ["/usr/bin/code"] /\
  transitions evs = [Entered "code"; Exited "vim"] /\
  (forall name,
     In (Entered name) (transitions evs) <->
     exists path program,
       In path running /\ ~ In path last /\
       Registry.getProgramByPath programs path = Some program /\
       EP.name program = name) /\
  (forall name,
     In (Exited name) (transitions evs) <->
     exists path program,
       In path last /\ ~ In path running /\
       Registry.getProgramByPath programs path = Some program /\
       EP.name program = name).
Proof.
  intros R programs last running evs.
  split; [vm_compute; reflexivity|]. split; [vm_compute; reflexivity|].
  apply (PollingLaws.cycle_transitions (R := R) last programs Sample.world).
  discriminate.
Defined.

(** In the sample world a first cycle reports [code]. *)
Lemma cycle_running_programs_sample :
  let R := Sample.runtime in
  let programs := [Sample.code; Sample.vim] in
  let running :=
    scanReports Sample.world (Registry.getEnrolledPaths programs) in
  let '(self', _, _, _) :=
    ProcessWatcher.tick ProcessWatcher.create programs Sample.world in
  let current := ProcessWatcher.getCurrentlyRunningPrograms self' in
  NoDup current /\
  (forall path, In path current <-> In path running) /\
  (forall path, In path current ->
                In path (Registry.getEnrolledPaths programs)) /\
  (DistinctPaths programs -> current = running).
Proof.
  intros R programs running.
  apply (PollingLaws.cycle_running_programs (R := R) ProcessWatcher.create
           programs Sample.world).
  discriminate.
Defined.


(** When [ps] fails, a cycle reports [code] and [vim] as left. *)
Lemma cycle_without_running_sample :
  let R := Sample.runtime in
  let programs := [Sample.code; Sample.vim] in
  let last := ["/usr/bin/code"; "/usr/bin/vim"; "/usr/bin/gone"] in
  let '(last', programs', _, evs) :=
    ProcessWatcher.checkEnrolledPrograms last programs
      SampleMore.failingWorld in
  last' = [] /\ programs' = programs /\ heartbeats evs = [] /\
  transitions evs =
  flat_map
    (fun path =>
       match Registry.getProgramByPath programs path with
       | Some program => [Exited (EP.name program)]
       | None => []
       end)
    last.
Proof.
  intros R programs last.
  apply (PollingLaws.cycle_without_running (R := R) last programs
           SampleMore.failingWorld).
  - discriminate.
  - vm_compute. reflexivity.
Defined.

(** After a first cycle in the sample world the open applications are
    [code]. *)
Lemma getOpenApps_after_cycle_sample :
  let R := Sample.runtime in
  let programs := [Sample.code; Sample.vim] in
  Main.getOpenApps programs None = [] /\
  let '(self', programs', _, _) :=
    ProcessWatcher.tick ProcessWatcher.create programs Sample.world in
  let openApps := Main.getOpenApps programs' (Some self') in
  map app_path openApps =
    scanReports Sample.world (Registry.getEnrolledPaths programs) /\
  map app_id openApps = map app_path openApps.
Proof.
  intros R programs.
  apply (MainLaws.getOpenApps_after_cycle (R := R) ProcessWatcher.create
           programs Sample.world).
  - discriminate.
  - exact sample_distinct.
Defined.

(** Stamping [code] in the sample world; [nano], not enrolled, is left
    alone. *)
Lemma updateLastSeen_spec_sample :
  let R := Sample.runtime in
  let programs := [Sample.code; Sample.vim] in
  Registry.updateLastSeen "/usr/bin/nano" programs Sample.world =
    (programs, Sample.world, []) /\
  let '(programs', w', evs) :=
    Registry.updateLastSeen "/usr/bin/code" programs Sample.world in
  let now := toISOString (clock Sample.world (clock_reads Sample.world)) in
  Registry.getProgramByPath programs' "/usr/bin/code" =
    Some (EP.mk (EP.id Sample.code) (EP.name Sample.code)
                (EP.path Sample.code) (EP.enrolledAt Sample.code)
                (Some now)) /\
  length programs' = length programs /\
  map EP.id programs' = map EP.id programs /\
  Registry.getEnrolledPaths programs' = Registry.getEnrolledPaths programs /\
  (forall q, EP.path q <> "/usr/bin/code" ->
             (In q programs' <-> In q programs)) /\
  clock_reads w' = S (clock_reads Sample.world) /\
  In (WriteFile dataFilePath (JSON_stringify programs')) evs.
Proof.
  intros R programs. split.
  - apply (proj1 (RegistryLaws.updateLastSeen_spec (R := R) "/usr/bin/nano"
                    programs Sample.world)).
    reflexivity.
  - apply (proj2 (RegistryLaws.updateLastSeen_spec (R := R) "/usr/bin/code"
                    programs Sample.world) Sample.code).
    reflexivity.
Defined.

(** Switching the monitoring of [vim] off removes its record and leaves
    [code]. *)
Lemma set_monitor_off_sample :
  let R := Sample.runtime in
  let programs := [Sample.code; Sample.vim] in
  let appData := Main.enrolledAsApp Sample.vim in
  let '(programs', _, _) :=
    MonitoringManager.set appData false programs Sample.world in
  MonitoringManager.isMonitored programs' (app_path appData) = false /\
  ~ In Sample.vim programs' /\
  forall q, In q programs -> q <> Sample.vim -> In q programs'.
Proof.
  intros R programs appData.
  apply (proj2 (RegistryLaws.set_monitor_off (R := R) appData programs
                  Sample.world)).
  - simpl. repeat constructor; simpl; intuition discriminate.
  - exact sample_distinct.
  - reflexivity.
Defined.


End LawSamples.
